(** * Mock X-GEN TI REST API: paging, cursors, retention and scheduler

    A shallow embedding of [app/main.py].  Python integers are unbounded,
    so they are [Z]; Python lists are [list]; [Optional[T]] is [option T];
    a request that raises is a value of an error type.  A Python [str]
    is a sequence of Unicode code points; a [string] here is a sequence
    of 8-bit characters, each read as the code point of the same number,
    so the texts of the model are those over U+0000..U+00FF, and the
    string functions below are Python's on that range.  The modules that
    [main.py] imports but that are not part of the verified sources
    ([paging], [file_store]) are modelled from the specification and are
    marked as such. *)

From Stdlib Require Import ZArith Ascii String DecimalString DecimalZ DecimalPos.
From stdpp Require Import base decidable option list sorting strings gmap fin_maps.

Local Open Scope Z_scope.

(** ** Python list slicing *)

Module Py.

(** [PySlice_AdjustIndices] for a step of 1: a negative index counts
    from the end of the list, and the result is clamped to [0, len]. *)
Definition adjust_index (len i : Z) : Z :=
  if i <? 0 then Z.max (i + len) 0 else Z.min i len.

(** [l[start:stop]] *)
Definition slice {A : Type} (l : list A) (start stop : Z) : list A :=
  let len := Z.of_nat (length l) in
  let lo := adjust_index len start in
  let hi := adjust_index len stop in
  take (Z.to_nat (hi - lo)) (drop (Z.to_nat lo) l).

(** [len(l)] *)
Definition len {A : Type} (l : list A) : Z := Z.of_nat (length l).

(** [x or y] on an optional integer: [None] and [0] are falsy. *)
Definition or_int (x : option Z) (y : Z) : Z :=
  match x with
  | Some v => if v =? 0 then y else v
  | None => y
  end.

End Py.

(** ** The cursor codec ([app/paging.py]) *)

(** Modelled from the spec: [app/paging.py] is missing.  The specification
    fixes the contract only: [encode] maps a non-negative offset to an
    opaque, stable token from which [decode] recovers the offset, and
    [decode] of an absent, empty or malformed token is offset 0.  The
    token is modelled as the decimal numeral of the offset (the simplest
    reversible encoding of the integer); a token is well formed when it is
    a non-empty string of decimal digits. *)
Definition encode_token (offset : Z) : string :=
  NilZero.string_of_int (Z.to_int offset).

(** Modelled from the spec: the fallible part of decoding; [None] stands
    for the parse error that [decode_token] swallows. *)
Definition parse_token (s : string) : option Z :=
  match s with
  | EmptyString => None
  | _ => Z.of_uint <$> NilEmpty.uint_of_string s
  end.

(** Modelled from the spec: [decode_token] of [app/paging.py]. *)
Definition decode_token (token : option string) : Z :=
  match token with
  | None => 0
  | Some s => default 0 (parse_token s)
  end.

(** ** The paging helper *)

Section Page.

Context {A : Type}.

(** [_page(items, offset, page_size)] *)
Definition _page (items : list A) (offset page_size : Z)
  : list A * Z * bool * option string :=
  let total := Py.len items in
  let start := Z.max offset 0 in
  let end_ := Z.min (start + page_size) total in
  let slice_ := Py.slice items start end_ in
  let more := end_ <? total in
  let next_token := if more then Some (encode_token end_) else None in
  (slice_, total, more, next_token).

End Page.

(** ** Request parameters *)

Module Str.

(** [c.isspace()] for a code point below 256, which is also the set of
    characters that [str.strip] without argument removes: tab, line feed,
    vertical tab, form feed and carriage return (9..13), the four
    separators 28..31, the space (32), NEXT LINE (U+0085, 133) and
    NO-BREAK SPACE (U+00A0, 160). *)
Definition isspace (c : ascii) : bool :=
  let n := N_of_ascii c in
  ((9 <=? n) && (n <=? 13) || (28 <=? n) && (n <=? 32)
   || (n =? 133) || (n =? 160))%N.

Fixpoint lstrip (s : string) : string :=
  match s with
  | String c s' => if isspace c then lstrip s' else s
  | EmptyString => EmptyString
  end.

(** [s.strip()] *)
Definition strip (s : string) : string :=
  String.rev (lstrip (String.rev (lstrip s))).

Fixpoint split_go (sep : ascii) (cur : string) (s : string) : list string :=
  match s with
  | EmptyString => [String.rev cur]
  | String c s' =>
      if Ascii.eqb c sep then String.rev cur :: split_go sep EmptyString s'
      else split_go sep (String c cur) s'
  end.

(** [s.split(sep)] for a one-character separator. *)
Definition split (sep : ascii) (s : string) : list string :=
  split_go sep EmptyString s.

(** Truthiness of a string: the empty string is falsy. *)
Definition truthy (s : string) : bool :=
  match s with EmptyString => false | _ => true end.

(** [c.lower()] for a code point below 256: the letters A..Z (65..90)
    and the capital letters of the Latin-1 block (U+00C0..U+00DE, but not
    the multiplication sign U+00D7) move up by 32, every other character
    is kept.  On this range [str.lower] works character by character. *)
Definition lower_char (c : ascii) : ascii :=
  let n := N_of_ascii c in
  if ((65 <=? n) && (n <=? 90)
      || (192 <=? n) && (n <=? 222) && negb (n =? 215))%N
  then ascii_of_N (n + 32) else c.

Fixpoint lower (s : string) : string :=
  match s with
  | String c s' => String (lower_char c) (lower s')
  | EmptyString => EmptyString
  end.

(** [s.startswith(p)] *)
Definition startswith (p s : string) : bool := String.prefix p s.

(** [s.endswith(p)] *)
Definition endswith (p s : string) : bool :=
  String.prefix (String.rev p) (String.rev s).

End Str.

(** [_parse_types_param(types_param)] *)
Definition _parse_types_param (types_param : option string) : option (list string) :=
  match types_param with
  | None => None
  | Some s =>
      if negb (Str.truthy s) then None
      else
        let parts :=
          omap (fun t => if Str.truthy (Str.strip t) then Some (Str.strip t) else None)
               (Str.split ","%char s) in
        match parts with
        | [] => None
        | _ => Some parts
        end
  end.

(** ** The snapshot store ([app/file_store.py]) *)

(** Modelled from the spec: the objects of a bundle are dictionaries whose
    shape [app/generator.py], which is missing, decides; they are reduced to
    the fields that the read path looks at. *)
Record IntelObject := mkObject {
  obj_id : string;
  obj_type : string;
  obj_modified : string
}.

(** Modelled from the spec: a snapshot file of the data directory, with the
    generation time that its name encodes; a file that cannot be parsed has
    no bundle. *)
Record Snapshot := mkSnapshot {
  snap_name : string;
  generated_at : Z;
  snap_bundle : option (list IntelObject)
}.

(** Modelled from the spec: the merge order, oldest snapshot first. *)
Definition older_or_same (a b : Snapshot) : Prop := generated_at a <= generated_at b.

#[global] Instance older_or_same_dec : RelDecision older_or_same.
Proof. intros a b. unfold older_or_same. apply _. Defined.

(** Modelled from the spec: the filter of the merged view; timestamps are
    ISO-8601 strings of one format, compared as strings. *)
Definition keeps (since : option string) (types : option (list string))
    (o : IntelObject) : bool :=
  match since with
  | Some t => String.leb t (obj_modified o)
  | None => true
  end
  &&
  match types with
  | Some ts => bool_decide (obj_type o ∈ ts)
  | None => true
  end.

(** Modelled from the spec: [load_objects] of [app/file_store.py] is
    missing.  Following the specification, it enumerates the snapshot
    files, skips the ones that cannot be read, concatenates the others
    oldest first keeping the order inside a snapshot, keeps the objects
    modified at or after [since] whose type is in the allow-list, and
    truncates the result to at most [limit] objects in total. *)
Definition load_objects (data_dir : list Snapshot) (since : option string)
    (limit : Z) (types : option (list string)) : list IntelObject :=
  let ordered := merge_sort older_or_same data_dir in
  let merged := concat (omap snap_bundle ordered) in
  take (Z.to_nat limit) (List.filter (keeps since types) merged).

(** Modelled from the spec: [load_indicators] of [app/file_store.py] is
    missing; it is the same read restricted to the type ["indicator"]. *)
Definition load_indicators (data_dir : list Snapshot) (since : option string)
    (limit : Z) : list IntelObject :=
  load_objects data_dir since limit (Some ["indicator"%string]).

(** ** Configuration and list endpoints *)

(** The module-level settings that the modelled functions read. *)
Record Config := mkConfig {
  GENERATE_EVERY_SECONDS : Z;
  GENERATE_ON_START : bool;
  MIN_COUNT : Z;
  MAX_COUNT : Z;
  COLLECTION_ID : string;
  TAXII_INDICATORS_ONLY : bool;
  SOURCE_SYSTEM : string
}.

(** The defaults of the environment variables. *)
Definition default_config : Config := {|
  GENERATE_EVERY_SECONDS := 2 * 60 * 60;
  GENERATE_ON_START := true;
  MIN_COUNT := 10;
  MAX_COUNT := 25;
  COLLECTION_ID := "indicators";
  TAXII_INDICATORS_ONLY := false;
  SOURCE_SYSTEM := "STEELCAGE.AI X-GEN TI PLATFORM"
|}.

(** The outcome of a request handler: a body, or a raised
    [HTTPException(status_code, detail)]. *)
Inductive http_result (B : Type) : Type :=
| Ok (body : B)
| HTTPException (status_code : Z) (detail : string).
Arguments Ok {B} body.
Arguments HTTPException {B} status_code detail.

(** Body of [GET /api/v1/indicators]. *)
Record IndicatorsBody := mkIndicatorsBody {
  ib_count : Z;
  ib_total : Z;
  ib_more : bool;
  ib_next : option string;
  ib_sourcesystem : string;
  ib_stixobjects : list IntelObject
}.

(** Body of [GET /api/v1/collections/{collection_id}/objects]. *)
Record ObjectsBody := mkObjectsBody {
  ob_objects : list IntelObject;
  ob_sourcesystem : string;
  ob_total : Z;
  ob_more : bool;
  ob_next : option string
}.

(** Body of [GET /taxii2/root/collections/{collection_id}/objects]; the
    [ETag] and [Last-Modified] headers, which hash the wall clock, are not
    modelled. *)
Record TaxiiBody := mkTaxiiBody {
  tb_objects : list IntelObject;
  tb_sourcesystem : string;
  tb_more : bool;
  tb_next : option string
}.

Section Endpoints.

Variable cfg : Config.
(** The snapshot files under [DATA_DIR] when the request is served. *)
Variable data_dir : list Snapshot.

(** [_collect_items(since, types)] *)
Definition _collect_items (since : option string) (types : option (list string))
  : list IntelObject :=
  let merged := load_objects data_dir since 10000 types in
  merged.

(** [get_indicators(since, limit, page_size, next)] *)
Definition get_indicators (since : option string) (limit page_size : option Z)
    (next : option string) : IndicatorsBody :=
  let items := load_indicators data_dir since 10000 in
  let page_size :=
    match page_size with
    | None => Py.or_int limit (Py.len items)
    | Some ps => ps
    end in
  let offset := decode_token next in
  let '(page, total, more, next_token) := _page items offset page_size in
  {| ib_count := Py.len page;
     ib_total := total;
     ib_more := more;
     ib_next := next_token;
     ib_sourcesystem := SOURCE_SYSTEM cfg;
     ib_stixobjects := page |}.

(** [get_collection_objects(collection_id, since, types, page_size, next)];
    [page_size] defaults to 100 when the query leaves it out. *)
Definition get_collection_objects (collection_id : string) (since types : option string)
    (page_size : Z) (next : option string) : http_result ObjectsBody :=
  if negb (String.eqb collection_id (COLLECTION_ID cfg)) then
    HTTPException 404 "Collection not found"
  else
    let type_list := _parse_types_param types in
    let items := _collect_items since type_list in
    let offset := decode_token next in
    let '(page, total, more, next_token) := _page items offset page_size in
    Ok {| ob_objects := page;
          ob_sourcesystem := SOURCE_SYSTEM cfg;
          ob_total := total;
          ob_more := more;
          ob_next := next_token |}.

(** [taxii_objects(request, collection_id, added_after, limit, next, types)];
    [limit] defaults to 100 when the query leaves it out. *)
Definition taxii_objects (collection_id : string) (added_after : option string)
    (limit : Z) (next types : option string) : http_result TaxiiBody :=
  if negb (String.eqb collection_id (COLLECTION_ID cfg)) then
    HTTPException 404 "Collection not found"
  else
    let type_list :=
      if TAXII_INDICATORS_ONLY cfg then Some ["indicator"%string]
      else _parse_types_param types in
    let items := _collect_items added_after type_list in
    let offset := decode_token next in
    let '(page, total, more, next_token) := _page items offset limit in
    Ok {| tb_objects := page;
          tb_sourcesystem := SOURCE_SYSTEM cfg;
          tb_more := more;
          tb_next := next_token |}.

End Endpoints.

(** ** A client that follows the cursors *)

(** The paging loop of a client: request a page at the offset decoded from
    the cursor, and go on with the returned cursor while [more] is set.
    [fuel] bounds the number of requests; [None] means that the bound was
    reached with [more] still set. *)
Fixpoint follow_pages {A : Type} (fuel : nat) (items : list A) (page_size : Z)
    (next : option string) : option (list (list A)) :=
  match fuel with
  | O => None
  | S fuel' =>
      let '(page, _, more, next_token) := _page items (decode_token next) page_size in
      if more then (fun rest => page :: rest) <$> follow_pages fuel' items page_size next_token
      else Some [page]
  end.

(** ** Errors *)

(** A computation that returns a value or raises. *)
Inductive result (E A : Type) : Type :=
| Success (a : A)
| Raise (e : E).
Arguments Success {E A} a.
Arguments Raise {E A} e.

#[global] Instance result_ret {E : Type} : MRet (result E) := fun A a => Success a.

#[global] Instance result_bind {E : Type} : MBind (result E) :=
  fun A B k m =>
    match m with
    | Success a => k a
    | Raise e => Raise e
    end.

(** A [for] loop whose body may raise: the first exception ends the loop. *)
Fixpoint for_each {E S X : Type} (body : S -> X -> result E S) (xs : list X) (s : S)
    : result E S :=
  match xs with
  | [] => Success s
  | x :: xs' => s' ← body s x; for_each body xs' s'
  end.

(** ** The retention reaper *)

Module Reaper.

(** Instants are microseconds since the Unix epoch, the resolution of
    [datetime]. *)
Definition datetime_min : Z := -62135596800 * 1000000.
Definition datetime_max : Z := 253402300799 * 1000000 + 999999.
Definition us_per_hour : Z := 3600 * 1000000.
Definition us_per_day : Z := 24 * us_per_hour.

Inductive error :=
| OverflowError
| FileNotFoundError (path : string).

(** [timedelta(hours=h)]: the number of days must fit nine digits. *)
Definition timedelta_hours (h : Z) : result error Z :=
  let us := h * us_per_hour in
  let days := us / us_per_day in
  if (-999999999 <=? days) && (days <=? 999999999) then Success us
  else Raise OverflowError.

(** [t - delta] on an aware UTC [datetime]: the year must stay within
    1..9999. *)
Definition datetime_sub (t delta : Z) : result error Z :=
  let r := t - delta in
  if (datetime_min <=? r) && (r <=? datetime_max) then Success r
  else Raise OverflowError.

(** [os.path.join(root, filename)] *)
Definition path_join (root filename : string) : string :=
  if Str.startswith "/" filename then filename
  else if negb (Str.truthy root) || Str.endswith "/" root then root +:+ filename
  else root +:+ "/" +:+ filename.

(** The test of the inner [if]. *)
Definition is_snapshot_name (filename : string) : bool :=
  Str.endswith ".json" (Str.lower filename) && Str.startswith "indicators_" filename.

(** The file system maps the path of a regular file to its modification
    time; the state of the sweep is the file system and [deleted_files]. *)
Definition sweep_file (threshold : Z) (root : string)
    (st : gmap string Z * list string) (filename : string)
    : result error (gmap string Z * list string) :=
  let '(fs, deleted_files) := st in
  if is_snapshot_name filename then
    let file_path := path_join root filename in
    match fs !! file_path with
    | None => Raise (FileNotFoundError file_path)
    | Some file_mtime =>
        if file_mtime <? threshold then
          Success (delete file_path fs, deleted_files ++ [filename])
        else Success (fs, deleted_files)
    end
  else Success st.

Definition sweep_dir (threshold : Z) (st : gmap string Z * list string)
    (entry : string * list string) : result error (gmap string Z * list string) :=
  let '(root, files) := entry in
  for_each (sweep_file threshold root) files st.

(** Body of [DELETE /api/v1/ti-delete]; the [timestamp] field, a second
    reading of the clock, is left out. *)
Record DeleteBody := mkDeleteBody {
  status : string;
  deleted_files : list string;
  total_deleted : Z;
  threshold_hours : Z
}.

(** [delete_old_ti_files(h)].  [walk] is what [os.walk(DATA_DIR)] yields:
    every directory under the data directory with the names of its files;
    [now] is [datetime.now(timezone.utc)]. *)
Definition delete_old_ti_files (fs : gmap string Z) (walk : list (string * list string))
    (now : Z) (h : Z) : result error (gmap string Z * DeleteBody) :=
  delta ← timedelta_hours h;
  threshold ← datetime_sub now delta;
  st ← for_each (sweep_dir threshold) walk (fs, []);
  let '(fs', deleted_files) := st in
  Success (fs', {| status := "successful";
                   deleted_files := deleted_files;
                   total_deleted := Py.len deleted_files;
                   threshold_hours := h |}).

End Reaper.

(** ** The regeneration scheduler *)

Module Scheduler.

(** What a call can raise: an instance of [Exception], or one of the
    other [BaseException]s ([KeyboardInterrupt], [SystemExit],
    [asyncio.CancelledError]) that [except Exception] lets through. *)
Inductive exn :=
| Exception (msg : string)
| BaseException (msg : string).

(** How one generate-and-write cycle goes. *)
Inductive cycle_outcome :=
| Completes
| GenerateRaises (e : exn)
| WriteRaises (e : exn).

(** What the task does, in order. *)
Inductive event :=
| EvSleep (seconds : Z)
| EvGenerate (min_count max_count : Z)
| EvWrite
| EvPrint (line : string).

(** The task is alive, or an exception has left it. *)
Inductive status :=
| Running
| Raised (e : exn).

(** [payload = generate_payload(...); write_payload(DATA_DIR, payload)] *)
Definition cycle (cfg : Config) (o : cycle_outcome) : list event * option exn :=
  let gen := EvGenerate (MIN_COUNT cfg) (MAX_COUNT cfg) in
  match o with
  | Completes => ([gen; EvWrite], None)
  | GenerateRaises e => ([gen], Some e)
  | WriteRaises e => ([gen; EvWrite], Some e)
  end.

(** One turn of [while True]: the [try] block and its handler. *)
Definition loop_body (cfg : Config) (o : cycle_outcome) : list event * option exn :=
  let '(evs, raised) := cycle cfg o in
  let tried := EvSleep (GENERATE_EVERY_SECONDS cfg) :: evs in
  match raised with
  | None => (tried, None)
  | Some (Exception msg) =>
      (tried ++ [EvPrint ("[generator] error: " +:+ msg); EvSleep 10], None)
  | Some e => (tried, Some e)
  end.

(** The first [turns] turns of [_loop]; [outcomes i] is how the cycle of
    turn [i] goes.  There is no [break]: the loop is left only by an
    exception. *)
Fixpoint _loop (cfg : Config) (outcomes : nat -> cycle_outcome) (turns : nat)
    : list event * status :=
  match turns with
  | O => ([], Running)
  | S turns' =>
      let '(evs, escaped) := loop_body cfg (outcomes O) in
      match escaped with
      | Some e => (evs, Raised e)
      | None =>
          let '(rest, st) := _loop cfg (fun i => outcomes (S i)) turns' in
          (evs ++ rest, st)
      end
  end.

(** [_start_generator()], observed up to [turns] turns of the loop that
    it starts.  With [GENERATE_ON_START] the first outcome is the one of
    the start-up cycle, which runs outside any [try]. *)
Definition _start_generator (cfg : Config) (outcomes : nat -> cycle_outcome)
    (turns : nat) : list event * status :=
  if GENERATE_ON_START cfg then
    let '(evs, raised) := cycle cfg (outcomes O) in
    match raised with
    | Some e => (evs, Raised e)
    | None =>
        let '(rest, st) := _loop cfg (fun i => outcomes (S i)) turns in
        (evs ++ rest, st)
    end
  else _loop cfg outcomes turns.

End Scheduler.

(** ** Masking, joining and the remaining handlers *)

Module Text.

(** A string as the sequence of its characters. *)
Definition chars (s : string) : list ascii := list_ascii_of_string s.
Definition of_chars (l : list ascii) : string := string_of_list_ascii l.

(** [len(s)] *)
Definition len (s : string) : Z := Py.len (chars s).

(** [s[start:stop]] *)
Definition slice (s : string) (start stop : Z) : string :=
  of_chars (Py.slice (chars s) start stop).

(** [c * n]: no character at all when [n] is not positive. *)
Definition repeat (c : ascii) (n : Z) : string := of_chars (replicate (Z.to_nat n) c).

(** [sep.join(parts)] *)
Fixpoint join (sep : string) (parts : list string) : string :=
  match parts with
  | [] => EmptyString
  | [x] => x
  | x :: rest => x +:+ sep +:+ join sep rest
  end.

Fixpoint lstrip_char (c : ascii) (s : string) : string :=
  match s with
  | String a s' => if Ascii.eqb a c then lstrip_char c s' else s
  | EmptyString => EmptyString
  end.

(** [s.rstrip(c)] for a one-character set. *)
Definition rstrip_char (c : ascii) (s : string) : string :=
  String.rev (lstrip_char c (String.rev s)).

End Text.

(** [_mask_sensitive_value(value)] *)
Definition _mask_sensitive_value (value : string) : string :=
  let length := Text.len value in
  if length <=? 8 then value
  else Text.slice value 0 4 +:+ Text.repeat "*" (length - 8)
       +:+ Text.slice value (-4) length.

(** The module-level settings read by the handlers below, as the strings
    that the environment gives. *)
Record Settings := mkSettings {
  API_KEYS_ENV : string;
  CORS_ORIGINS_ENV : string;
  TAXII_API_ROOT_PATH : string;
  COLLECTION_TITLE : string
}.

(** [API_KEYS]: the text of the environment variable, split at the commas. *)
Definition API_KEYS (env : Settings) : list string :=
  Str.split ","%char (API_KEYS_ENV env).

(** [CORS_ORIGINS]: the stripped, non-empty pieces of the environment
    variable split at the commas. *)
Definition CORS_ORIGINS (env : Settings) : list string :=
  omap (fun o => if Str.truthy (Str.strip o) then Some (Str.strip o) else None)
       (Str.split ","%char (CORS_ORIGINS_ENV env)).

Inductive IndexError := list_index_out_of_range.

(** [l[0]] *)
Definition first_item {X : Type} (l : list X) : result IndexError X :=
  match l with
  | x :: _ => Success x
  | [] => Raise list_index_out_of_range
  end.

(** The ["api_keys"] field of [healthz()]. *)
Definition healthz_api_keys (env : Settings) : result IndexError string :=
  key ← first_item (API_KEYS env);
  Success (_mask_sensitive_value key).

(** An entry of a collection listing; [media_types] is empty for the
    listing that has no such field. *)
Record CollectionInfo := mkCollectionInfo {
  ci_id : string;
  ci_title : string;
  ci_can_read : bool;
  ci_can_write : bool;
  ci_media_types : list string
}.

(** [list_collections()] *)
Definition list_collections (cfg : Config) (env : Settings) : list CollectionInfo :=
  [ {| ci_id := COLLECTION_ID cfg;
       ci_title := COLLECTION_TITLE env;
       ci_can_read := true;
       ci_can_write := false;
       ci_media_types := [] |} ].

(** [taxii_collections()] *)
Definition taxii_collections (cfg : Config) (env : Settings) : list CollectionInfo :=
  [ {| ci_id := COLLECTION_ID cfg;
       ci_title := COLLECTION_TITLE env;
       ci_can_read := true;
       ci_can_write := false;
       ci_media_types := ["application/stix+json;version=2.1"%string] |} ].

(** Body of [GET /taxii2/]. *)
Record DiscoveryBody := mkDiscoveryBody {
  db_default : string;
  db_api_roots : list string
}.

(** [taxii_discovery(request)], for the text of [request.base_url]. *)
Definition taxii_discovery (env : Settings) (base_url : string) : DiscoveryBody :=
  let base := Text.rstrip_char "/" base_url in
  let api_root := base +:+ TAXII_API_ROOT_PATH env in
  {| db_default := api_root; db_api_roots := [api_root] |}.

(** The [types=...] part of [extras] in [taxii_objects]:
    [','.join(type_list) if type_list else 'all']. *)
Definition types_label (type_list : option (list string)) : string :=
  match type_list with
  | Some (x :: rest) => Text.join "," (x :: rest)
  | Some [] | None => "all"
  end.

Module Path.

Fixpoint rfind_from (c : ascii) (s : string) (i found : Z) : Z :=
  match s with
  | EmptyString => found
  | String a s' => rfind_from c s' (i + 1) (if Ascii.eqb a c then i else found)
  end.

(** [s.rfind(c)]: the index of the last [c], or -1. *)
Definition rfind (c : ascii) (s : string) : Z := rfind_from c s 0 (-1).

(** [os.path.basename(p)]: [i = p.rfind('/') + 1; return p[i:]]. *)
Definition basename (p : string) : string :=
  let i := rfind "/" p + 1 in
  Text.slice p i (Text.len p).

End Path.

(** A client of [GET /api/v1/indicators] that asks for pages of [page_size]
    and follows the [next] cursor while [more] is set, over a data
    directory that does not change in the meantime.  [fuel] bounds the
    number of requests. *)
Fixpoint follow_indicators (fuel : nat) (cfg : Config) (data_dir : list Snapshot)
    (since : option string) (page_size : Z) (next : option string)
    : option (list (list IntelObject)) :=
  match fuel with
  | O => None
  | S fuel' =>
      let body := get_indicators cfg data_dir since None (Some page_size) next in
      if ib_more body then
        (fun rest => ib_stixobjects body :: rest)
          <$> follow_indicators fuel' cfg data_dir since page_size (ib_next body)
      else Some [ib_stixobjects body]
  end.

(** * Vocabulary of the properties *)

Definition is_digit (c : ascii) : bool :=
  let n := N_of_ascii c in ((48 <=? n) && (n <=? 57))%N.

Fixpoint all_digits (s : string) : bool :=
  match s with
  | EmptyString => true
  | String c s' => is_digit c && all_digits s'
  end.

(** A token is well formed when it is a non-empty string of digits; every
    other string is a malformed token. *)
Definition well_formed_token (s : string) : bool :=
  Str.truthy s && all_digits s.

(** A cursor that a request may carry without it denoting a position:
    absent, empty or malformed. *)
Definition invalid_cursor (next : option string) : Prop :=
  match next with
  | None => True
  | Some s => well_formed_token s = false
  end.

(** What a handler answers satisfies [P], whatever it raises. *)
Definition when_ok {B : Type} (P : B -> Prop) (r : http_result B) : Prop :=
  match r with
  | Ok body => P body
  | HTTPException _ _ => True
  end.

(** The files that the walk visits, as pairs of a directory and a name,
    in the order of the visit. *)
Fixpoint entries (walk : list (string * list string)) : list (string * string) :=
  match walk with
  | [] => []
  | (root, files) :: walk' => ((fun f => (root, f)) <$> files) ++ entries walk'
  end.

Definition path_of (e : string * string) : string := Reaper.path_join e.1 e.2.

(** The entry has a snapshot name, for the test that the code makes. *)
Definition named (e : string * string) : bool := Reaper.is_snapshot_name e.2.




(** The body of the two loops for one entry. *)
Definition sweep_entry (threshold : Z) (st : gmap string Z * list string)
    (e : string * string) : result Reaper.error (gmap string Z * list string) :=
  Reaper.sweep_file threshold e.1 st e.2.

(** The cycle completes or fails with an instance of [Exception]. *)
Definition ordinary (o : Scheduler.cycle_outcome) : Prop :=
  match o with
  | Scheduler.Completes => True
  | Scheduler.GenerateRaises (Scheduler.Exception _)
  | Scheduler.WriteRaises (Scheduler.Exception _) => True
  | Scheduler.GenerateRaises (Scheduler.BaseException _)
  | Scheduler.WriteRaises (Scheduler.BaseException _) => False
  end.

Definition message (e : Scheduler.exn) : string :=
  match e with Scheduler.Exception msg | Scheduler.BaseException msg => msg end.

(** What one turn of the loop is expected to do: sleep the interval, run
    the cycle, and after a failure log it and sleep the backoff. *)
Definition turn_trace (cfg : Config) (backoff : Z) (o : Scheduler.cycle_outcome)
    : list Scheduler.event :=
  let sleep := Scheduler.EvSleep (GENERATE_EVERY_SECONDS cfg) in
  let gen := Scheduler.EvGenerate (MIN_COUNT cfg) (MAX_COUNT cfg) in
  let failed e :=
    [Scheduler.EvPrint ("[generator] error: " +:+ message e); Scheduler.EvSleep backoff] in
  match o with
  | Scheduler.Completes => [sleep; gen; Scheduler.EvWrite]
  | Scheduler.GenerateRaises e => [sleep; gen] ++ failed e
  | Scheduler.WriteRaises e => [sleep; gen; Scheduler.EvWrite] ++ failed e
  end.

(** The two collection handlers give the same answer: the same page, [more]
    flag and token, or the same error. *)
Definition same_answer (r : http_result ObjectsBody) (t : http_result TaxiiBody) : Prop :=
  match r, t with
  | Ok body, Ok tbody =>
      ob_objects body = tb_objects tbody
      /\ ob_more body = tb_more tbody
      /\ ob_next body = tb_next tbody
      /\ ob_sourcesystem body = tb_sourcesystem tbody
  | HTTPException code detail, HTTPException code' detail' =>
      code = code' /\ detail = detail'
  | _, _ => False
  end.

(** What a successful sweep keeps true of its state, for the file system
    [fs] it started from: files only disappear, each disappearance is
    recorded with a snapshot name, and a file not older than [threshold]
    is still there. *)
Definition sweep_invariant (fs : gmap string Z) (threshold : Z)
    (st : gmap string Z * list string) : Prop :=
  st.1 ⊆ fs
  /\ Z.of_nat (size fs) = Z.of_nat (size st.1) + Py.len st.2
  /\ Forall (fun filename => Reaper.is_snapshot_name filename = true) st.2
  /\ (forall p m, fs !! p = Some m -> threshold <= m -> st.1 !! p = Some m).

(** The events of a cycle that raises: the call that raised is the last. *)
Definition failed_cycle (cfg : Config) (o : Scheduler.cycle_outcome) : list Scheduler.event :=
  (Scheduler.cycle cfg o).1.

(** The exception of a cycle that raises. *)
Definition raised_by (o : Scheduler.cycle_outcome) : option Scheduler.exn :=
  match o with
  | Scheduler.Completes => None
  | Scheduler.GenerateRaises e | Scheduler.WriteRaises e => Some e
  end.

(** Dropping the leading characters that satisfy [f]: what [lstrip] does for
    white space and [lstrip_char] for one character. *)
Fixpoint drop_while (f : ascii -> bool) (s : string) : string :=
  match s with
  | String a s' => if f a then drop_while f s' else s
  | EmptyString => EmptyString
  end.

(** The string does not start with a character that satisfies [f]. *)
Definition starts_clear (f : ascii -> bool) (s : string) : Prop :=
  match s with
  | String a _ => f a = false
  | EmptyString => True
  end.

(** The text before the first occurrence of the character [sep]; the whole
    text when [sep] does not occur in it. *)
Fixpoint before_first (sep : ascii) (s : string) : string :=
  match s with
  | String c s' => if Ascii.eqb c sep then EmptyString else String c (before_first sep s')
  | EmptyString => EmptyString
  end.

(** The code points below 256 that Python counts as white space
    ([chr(n).isspace()]), which are the characters that [str.strip]
    removes: the ASCII controls 9..13 and 28..31, the space, NEXT LINE
    (U+0085) and NO-BREAK SPACE (U+00A0). *)
Definition white_space : list N := [9; 10; 11; 12; 13; 28; 29; 30; 31; 32; 133; 160]%N.

(** Neither the first nor the last character of the text is white space. *)
Definition trimmed (t : string) : Prop :=
  forall c, head (Text.chars t) = Some c \/ last (Text.chars t) = Some c ->
            N_of_ascii c ∉ white_space.

(** [t] is [piece] without the white space at its two ends: [piece] is
    white space, [t], and white space again, and [t] has no white space
    at either end. *)
Definition stripped_from (piece t : string) : Prop :=
  trimmed t
  /\ exists ws ws',
       Text.chars piece = ws ++ Text.chars t ++ ws'
       /\ Forall (fun a => N_of_ascii a ∈ white_space) ws
       /\ Forall (fun a => N_of_ascii a ∈ white_space) ws'.

(** A type name as the parameter parser gives them out: not empty, without
    a comma, and without white space at either end (stripping it changes
    nothing). *)
Definition clean_name (t : string) : Prop :=
  t <> EmptyString /\ (","%char ∉ Text.chars t) /\ Str.strip t = t /\ trimmed t.

(** * Sample data *)

Definition sample_objects : list IntelObject :=
  [ mkObject "indicator--1" "indicator" "2025-01-01T00:00:00Z";
    mkObject "malware--2" "malware" "2025-01-01T00:00:00Z";
    mkObject "indicator--3" "indicator" "2025-01-02T00:00:00Z" ]%string.

Definition sample_store : list Snapshot :=
  [ mkSnapshot "indicators_2.json" 2
      (Some [mkObject "indicator--4" "indicator" "2025-01-03T00:00:00Z"]%string);
    mkSnapshot "indicators_broken.json" 3 None;
    mkSnapshot "indicators_1.json" 1 (Some sample_objects) ]%string.

(** NO-BREAK SPACE (U+00A0) and NEXT LINE (U+0085). *)
Definition nbsp : ascii := ascii_of_N 160.
Definition nel : ascii := ascii_of_N 133.

Definition hours (n : Z) : Z := n * Reaper.us_per_hour.

(** An instant in the year 2024. *)
Definition sample_now : Z := hours 480000.

(** A data directory with an old and a recent snapshot, an old file whose
    suffix is in capitals, and an old file that is not a snapshot. *)
Definition sample_fs : gmap string Z :=
  {[ "/app/data/indicators_old.json"%string := sample_now - hours 10;
     "/app/data/indicators_new.json"%string := sample_now - hours 2;
     "/app/data/sub/indicators_A.JSON"%string := sample_now - hours 10;
     "/app/data/notes.txt"%string := sample_now - hours 100 ]}.

Definition sample_walk : list (string * list string) :=
  [ ("/app/data", ["indicators_old.json"; "notes.txt"; "indicators_new.json"]);
    ("/app/data/sub", ["indicators_A.JSON"]) ]%string.

(** The third cycle of the loop fails, the others complete. *)
Definition sample_outcomes (i : nat) : Scheduler.cycle_outcome :=
  match i with
  | 3%nat => Scheduler.WriteRaises (Scheduler.Exception "disk full")
  | _ => Scheduler.Completes
  end.

(** An interval of 5 seconds, everything else as by default. *)
Definition short_interval_config : Config := {|
  GENERATE_EVERY_SECONDS := 5;
  GENERATE_ON_START := GENERATE_ON_START default_config;
  MIN_COUNT := MIN_COUNT default_config;
  MAX_COUNT := MAX_COUNT default_config;
  COLLECTION_ID := COLLECTION_ID default_config;
  TAXII_INDICATORS_ONLY := TAXII_INDICATORS_ONLY default_config;
  SOURCE_SYSTEM := SOURCE_SYSTEM default_config
|}.

(** * Properties *)

(** ** Worked examples *)

Example page_scenario_first :
  _page ["a"; "b"; "c"]%string 0 2 = (["a"; "b"]%string, 3, true, Some "2"%string).
Proof. reflexivity. Qed.

Example page_scenario_second :
  _page ["a"; "b"; "c"]%string (decode_token (Some "2"%string)) 2
  = (["c"]%string, 3, false, None).
Proof. reflexivity. Qed.

Example page_negative_size :
  _page ["a"; "b"; "c"]%string 0 (-1) = (["a"; "b"]%string, 3, true, Some "-1"%string).
Proof. reflexivity. Qed.

Example parse_types_example :
  _parse_types_param (Some " indicator, ,malware "%string)
  = Some ["indicator"; "malware"]%string.
Proof. reflexivity. Qed.

Example parse_types_blank : _parse_types_param (Some " , "%string) = None.
Proof. reflexivity. Qed.

Example follow_pages_example :
  follow_pages 4 ["a"; "b"; "c"]%string 2 None = Some [["a"; "b"]; ["c"]]%string.
Proof. reflexivity. Qed.

Example follow_pages_stuck :
  follow_pages 50 ["a"; "b"; "c"]%string 0 None = None.
Proof. reflexivity. Qed.

(** The retention scenario: snapshots aged 10 h and 2 h, threshold 6 h. *)
Example retention_scenario :
  let now := 1000 * Reaper.us_per_hour in
  let fs : gmap string Z :=
    {[ "/app/data/indicators_old.json"%string := now - 10 * Reaper.us_per_hour;
       "/app/data/indicators_new.json"%string := now - 2 * Reaper.us_per_hour ]} in
  Reaper.delete_old_ti_files fs
    [("/app/data", ["indicators_old.json"; "indicators_new.json"])]%string now 6
  = Success ({[ "/app/data/indicators_new.json"%string := now - 2 * Reaper.us_per_hour ]},
             {| Reaper.status := "successful";
                Reaper.deleted_files := ["indicators_old.json"%string];
                Reaper.total_deleted := 1;
                Reaper.threshold_hours := 6 |}).
Proof. vm_compute. reflexivity. Qed.

(** ** The cursor codec *)

Lemma uint_of_char_not_digit c d : is_digit c = false -> uint_of_char c d = None.
Proof.
  destruct d as [d|]; [|reflexivity].
  destruct c as [[|] [|] [|] [|] [|] [|] [|] [|]]; cbn; intros H;
    first [reflexivity | discriminate H].
Qed.

Lemma uint_of_char_None c : uint_of_char c None = None.
Proof. reflexivity. Qed.

Lemma uint_of_string_not_digits s :
  all_digits s = false -> NilEmpty.uint_of_string s = None.
Proof.
  induction s as [|c s IH]; cbn [all_digits NilEmpty.uint_of_string].
  - discriminate.
  - destruct (is_digit c) eqn:Hc; cbn [andb].
    + intros H. rewrite (IH H). apply uint_of_char_None.
    + intros _. by apply uint_of_char_not_digit.
Qed.

Lemma parse_token_malformed s : well_formed_token s = false -> parse_token s = None.
Proof.
  unfold well_formed_token, parse_token.
  destruct s as [|c s]; [reflexivity|].
  cbn [Str.truthy andb]. intros H.
  by rewrite (uint_of_string_not_digits _ H).
Qed.

Lemma decode_invalid next : invalid_cursor next -> decode_token next = 0.
Proof.
  destruct next as [s|]; [|reflexivity].
  cbn. intros H. by rewrite (parse_token_malformed _ H).
Qed.

Lemma string_of_uint_nonempty d : d <> Decimal.Nil -> NilEmpty.string_of_uint d <> EmptyString.
Proof. destruct d; cbn; congruence. Qed.

Lemma parse_string_of_uint d :
  d <> Decimal.Nil -> parse_token (NilEmpty.string_of_uint d) = Some (Z.of_uint d).
Proof.
  intros Hd. unfold parse_token.
  destruct (NilEmpty.string_of_uint d) eqn:E.
  - by apply string_of_uint_nonempty in E.
  - rewrite <- E, NilEmpty.usu. reflexivity.
Qed.

Lemma string_of_uint_nonnil d :
  d <> Decimal.Nil -> NilZero.string_of_uint d = NilEmpty.string_of_uint d.
Proof. destruct d; cbn; congruence. Qed.

Lemma decode_encode (n : Z) : 0 <= n -> decode_token (Some (encode_token n)) = n.
Proof.
  intros Hn. unfold decode_token, encode_token.
  destruct n as [|p|p]; [reflexivity| |lia].
  cbn [Z.to_int NilZero.string_of_int].
  pose proof (DecimalPos.Unsigned.to_uint_nonnil p) as Hnil.
  rewrite (string_of_uint_nonnil _ Hnil), (parse_string_of_uint _ Hnil).
  cbn [default]. unfold Z.of_uint. by rewrite DecimalPos.Unsigned.of_to.
Qed.

(** C3: decoding the token that encodes a non-negative offset gives the
    offset back, and the token is a function of the offset alone: equal
    offsets always yield equal tokens. *)
Theorem cursor_round_trip (n : Z) :
  0 <= n ->
  decode_token (Some (encode_token n)) = n
  /\ (forall m : Z, m = n -> encode_token m = encode_token n).
Proof.
  intros Hn. split; [by apply decode_encode|].
  intros m ->. reflexivity.
Qed.

Lemma cursor_round_trip_witness :
  0 <= 1234567890
  /\ decode_token (Some (encode_token 1234567890)) = 1234567890
  /\ (forall m : Z, m = 1234567890 -> encode_token m = encode_token 1234567890).
Proof. split; [lia | apply (cursor_round_trip 1234567890); lia]. Defined.

Example decode_absent : decode_token None = 0.
Proof. reflexivity. Qed.

Example decode_empty : decode_token (Some EmptyString) = 0.
Proof. reflexivity. Qed.

Example decode_garbage : decode_token (Some "garbage"%string) = 0.
Proof. reflexivity. Qed.

Example encode_example : encode_token 42 = "42"%string.
Proof. reflexivity. Qed.

(** ** Slices *)

Section SliceFacts.

Context {A : Type}.
Implicit Types (l items : list A) (a b : Z) (i : nat).

Lemma slice_nonneg l a b :
  0 <= a -> 0 <= b ->
  Py.slice l a b
  = take (Z.to_nat (Z.min b (Py.len l) - Z.min a (Py.len l)))
         (drop (Z.to_nat (Z.min a (Py.len l))) l).
Proof.
  intros Ha Hb. unfold Py.slice, Py.adjust_index, Py.len.
  destruct (Z.ltb_spec a 0); [lia|].
  destruct (Z.ltb_spec b 0); [lia|]. reflexivity.
Qed.

(** The elements of [l[a:b]] for non-negative bounds: position [i] of the
    slice is position [a + i] of the list, as long as that lies before
    [b] and before the end of the list. *)
Lemma slice_lookup l a b i :
  0 <= a -> 0 <= b ->
  Py.slice l a b !! i
  = if bool_decide (a + Z.of_nat i < Z.min b (Py.len l))
    then l !! (Z.to_nat a + i)%nat else None.
Proof.
  intros Ha Hb. rewrite slice_nonneg by done. unfold Py.len.
  case_bool_decide as Hi.
  - rewrite lookup_take_lt by lia. rewrite lookup_drop.
    f_equal. lia.
  - apply lookup_take_ge. lia.
Qed.

Lemma slice_length l a b :
  0 <= a -> 0 <= b ->
  Z.of_nat (length (Py.slice l a b))
  = Z.max 0 (Z.min b (Py.len l) - Z.min a (Py.len l)).
Proof.
  intros Ha Hb. rewrite slice_nonneg by done. unfold Py.len.
  rewrite length_take, length_drop. lia.
Qed.

(** A slice that starts inside the list and stops at or after its start. *)
Lemma slice_take_drop l a b :
  0 <= a <= b -> b <= Py.len l ->
  Py.slice l a b = take (Z.to_nat (b - a)) (drop (Z.to_nat a) l).
Proof.
  intros Ha Hb. rewrite slice_nonneg by lia.
  by rewrite !Z.min_l by lia.
Qed.

(** With a negative stop the slice counts the stop from the end. *)
Lemma slice_negative_stop l a b :
  0 <= a -> b < 0 ->
  Py.slice l a b
  = take (Z.to_nat (Z.max (b + Py.len l) 0 - Z.min a (Py.len l)))
         (drop (Z.to_nat (Z.min a (Py.len l))) l).
Proof.
  intros Ha Hb. unfold Py.slice, Py.adjust_index, Py.len.
  destruct (Z.ltb_spec a 0); [lia|].
  destruct (Z.ltb_spec b 0); [|lia]. reflexivity.
Qed.

Lemma slice_sublist l a b : Py.slice l a b `sublist_of` l.
Proof.
  unfold Py.slice. etrans; [apply sublist_take | apply sublist_drop].
Qed.

Lemma nil_length_Z l : l = [] <-> Z.of_nat (length l) = 0.
Proof. destruct l; cbn; split; intros; (done || lia). Qed.

End SliceFacts.

(** ** The paging helper *)

(** C1: for a positive page size the helper returns the elements at the
    positions [start <= j < end] in order, where [start = max(offset, 0)]
    and [end = min(start + page_size, len(items))], together with the
    total, the [more] flag [end < total] and the token of [end] when
    [more] is set. *)
Theorem page_positive_size {A : Type} (items : list A) (offset page_size : Z) :
  0 < page_size ->
  let start := Z.max offset 0 in
  let end_ := Z.min (start + page_size) (Py.len items) in
  let '(page, total, more, next_token) := _page items offset page_size in
  page = Py.slice items start end_
  /\ (forall i : nat,
        page !! i = if bool_decide (start + Z.of_nat i < end_)
                    then items !! (Z.to_nat start + i)%nat else None)
  /\ Py.len page = Z.max 0 (end_ - Z.min start (Py.len items))
  /\ total = Py.len items
  /\ more = bool_decide (end_ < total)
  /\ next_token = (if more then Some (encode_token end_) else None).
Proof.
  intros Hps start end_. unfold _page. fold start. fold end_.
  assert (0 <= start) by (unfold start; lia).
  assert (0 <= end_ <= Py.len items) by (unfold end_, Py.len; lia).
  split; [reflexivity|]. split; [|split; [|split; [reflexivity|split; [|reflexivity]]]].
  - intros i. rewrite slice_lookup by lia.
    by rewrite (Z.min_l end_) by lia.
  - unfold Py.len at 1. rewrite slice_length by lia.
    by rewrite (Z.min_l end_) by lia.
  - destruct (Z.ltb_spec end_ (Py.len items)); case_bool_decide; (done || lia).
Qed.

Lemma page_positive_size_witness :
  0 < 2
  /\ let '(page, total, more, next_token) := _page [10; 20; 30; 40; 50] 1 2 in
     page = Py.slice [10; 20; 30; 40; 50] 1 3
     /\ (forall i : nat,
           page !! i = if bool_decide (1 + Z.of_nat i < 3)
                       then [10; 20; 30; 40; 50] !! (1 + i)%nat else None)
     /\ Py.len page = 2
     /\ total = 5
     /\ more = bool_decide (3 < total)
     /\ next_token = (if more then Some (encode_token 3) else None).
Proof. split; [lia | apply (page_positive_size [10; 20; 30; 40; 50] 1 2); lia]. Defined.

(** The page of a request whose size is not positive. *)
Lemma page_nonpositive_size_empty_iff {A : Type} (items : list A) (offset page_size : Z) :
  page_size <= 0 ->
  let start := Z.max offset 0 in
  (_page items offset page_size).1.1.1 = []
  <-> (0 <= start + page_size \/ Py.len items <= start \/ Py.len items <= - page_size).
Proof.
  intros Hps start. unfold _page. fold start. cbn [fst].
  assert (0 <= start) by (unfold start; lia).
  rewrite nil_length_Z.
  destruct (Z.lt_ge_cases (start + page_size) 0) as [Hneg|Hpos].
  - rewrite Z.min_l by (unfold Py.len; lia).
    rewrite slice_negative_stop by lia.
    rewrite length_take, length_drop. unfold Py.len. lia.
  - rewrite slice_length by (unfold Py.len; lia). unfold Py.len. lia.
Qed.

(** C8, as the code has it: a request with [page_size <= 0] gets an empty
    page exactly when [max(offset, 0) + page_size] is not negative (so
    always for [page_size = 0]), or the start lies at or after the end of
    the sequence, or the sequence has at most [-page_size] elements.  In
    the remaining case the negative stop index counts from the end of the
    list and the page is not empty. *)
Theorem page_nonpositive_size (items : list IntelObject) (offset page_size : Z) :
  page_size <= 0 ->
  ((_page items offset page_size).1.1.1 = []
   <-> (0 <= Z.max offset 0 + page_size
        \/ Py.len items <= Z.max offset 0
        \/ Py.len items <= - page_size))
  /\ (page_size = 0 -> (_page items offset page_size).1.1.1 = []).
Proof.
  intros Hps.
  pose proof (page_nonpositive_size_empty_iff items offset page_size Hps) as Hiff.
  cbn zeta in Hiff. split; [exact Hiff|].
  intros ->. apply Hiff. lia.
Qed.

Lemma page_nonpositive_size_witness :
  -1 <= 0
  /\ (((_page sample_objects 2 (-1)).1.1.1 = []
       <-> (0 <= Z.max 2 0 + -1
            \/ Py.len sample_objects <= Z.max 2 0
            \/ Py.len sample_objects <= - -1))
      /\ (-1 = 0 -> (_page sample_objects 2 (-1)).1.1.1 = [])).
Proof. split; [lia | apply (page_nonpositive_size sample_objects 2 (-1)); lia]. Defined.

(** The statement of C8 fails on the code: with three items, offset 0 and
    page size -1 the stop index is -1 and the page holds the first two
    items. *)
Lemma page_nonpositive_size_not_always_empty :
  ~ (forall (items : list IntelObject) (offset page_size : Z),
       page_size <= 0 -> (_page items offset page_size).1.1.1 = []).
Proof.
  intros H. specialize (H sample_objects 0 (-1)).
  discriminate H. lia.
Qed.

Example page_nonpositive_size_example :
  (_page sample_objects 0 (-1)).1.1.1 = take 2 sample_objects.
Proof. reflexivity. Qed.

(** C9, as the code has it: for a non-empty sequence, [0 <= offset],
    [page_size <= 0] and [offset + page_size < len(items)], the helper
    reports [more] and the token of [offset + page_size], a position that
    is not after the current offset; the page is empty exactly when
    [offset + page_size] is not negative or the sequence has at most
    [-page_size] elements. *)
Theorem page_nonpositive_size_stalls (items : list IntelObject) (offset page_size : Z) :
  items <> [] -> 0 <= offset -> page_size <= 0 ->
  offset + page_size < Py.len items ->
  let '(page, total, more, next_token) := _page items offset page_size in
  more = true
  /\ next_token = Some (encode_token (offset + page_size))
  /\ offset + page_size <= offset
  /\ (page = [] <-> (0 <= offset + page_size \/ Py.len items <= - page_size))
  /\ (0 <= offset + page_size -> decode_token next_token <= offset).
Proof.
  intros Hne Hoff Hps Hlt.
  pose proof (page_nonpositive_size_empty_iff items offset page_size Hps) as Hiff.
  cbn zeta in Hiff. revert Hiff. unfold _page. cbn [fst].
  rewrite (Z.max_l offset 0) by lia.
  rewrite (Z.min_l (offset + page_size)) by lia.
  intros Hiff.
  destruct (Z.ltb_spec (offset + page_size) (Py.len items)); [|lia].
  split; [reflexivity|]. split; [reflexivity|]. split; [lia|]. split.
  - rewrite Hiff. unfold Py.len in *. lia.
  - intros Hpos. rewrite decode_encode by done. lia.
Qed.

Lemma page_nonpositive_size_stalls_witness :
  sample_objects <> [] /\ 0 <= 2 /\ -1 <= 0 /\ 2 + -1 < Py.len sample_objects
  /\ let '(page, total, more, next_token) := _page sample_objects 2 (-1) in
     more = true
     /\ next_token = Some (encode_token (2 + -1))
     /\ 2 + -1 <= 2
     /\ (page = [] <-> (0 <= 2 + -1 \/ Py.len sample_objects <= - -1))
     /\ (0 <= 2 + -1 -> decode_token next_token <= 2).
Proof.
  split; [discriminate|]. split; [lia|]. split; [lia|].
  split; [vm_compute; reflexivity|].
  apply (page_nonpositive_size_stalls sample_objects 2 (-1));
    [discriminate | lia | lia | vm_compute; reflexivity].
Defined.

(** The statement of C9 fails on the code in the same way as C8: the page
    of offset 0 and page size -1 over three items is not empty. *)
Lemma page_nonpositive_size_stalls_not_empty :
  ~ (forall (items : list IntelObject) (offset page_size : Z),
       items <> [] -> 0 <= offset -> page_size <= 0 ->
       offset + page_size < Py.len items ->
       let '(page, total, more, next_token) := _page items offset page_size in
       page = [] /\ more = true
       /\ next_token = Some (encode_token (offset + page_size))).
Proof.
  intros H. specialize (H sample_objects 0 (-1)).
  destruct H as [H _];
    [discriminate | lia | lia | vm_compute; reflexivity | discriminate H].
Qed.

(** ** Following the cursors to the end *)

Section Exhaustive.

Context {A : Type}.
Implicit Types (items : list A) (k o : Z).

(** One request at an offset inside the sequence, for a positive size. *)
Lemma page_inside items k o :
  1 <= k -> 0 <= o <= Py.len items ->
  let e := Z.min (o + k) (Py.len items) in
  _page items o k
  = (take (Z.to_nat (e - o)) (drop (Z.to_nat o) items), Py.len items,
     e <? Py.len items,
     if e <? Py.len items then Some (encode_token e) else None).
Proof.
  intros Hk Ho e. unfold _page.
  rewrite (Z.max_l o 0) by lia. fold e.
  rewrite slice_take_drop by (unfold e; lia). reflexivity.
Qed.

Lemma follow_pages_from (fuel : nat) : forall items k o next,
  1 <= k -> 0 <= o <= Py.len items ->
  decode_token next = o ->
  Py.len items - o < Z.of_nat fuel ->
  exists pages,
    follow_pages fuel items k next = Some pages
    /\ concat pages = drop (Z.to_nat o) items
    /\ Forall (fun page => Py.len page <= k) pages.
Proof.
  induction fuel as [|fuel IH]; intros items k o next Hk Ho Hdec Hfuel.
  { unfold Py.len in *. lia. }
  cbn [follow_pages]. rewrite Hdec, page_inside by done. cbn zeta.
  set (e := Z.min (o + k) (Py.len items)).
  assert (Hlen : Py.len (take (Z.to_nat (e - o)) (drop (Z.to_nat o) items)) <= k).
  { unfold Py.len. rewrite length_take. unfold e, Py.len. lia. }
  destruct (Z.ltb_spec e (Py.len items)) as [Hmore|Hlast].
  - destruct (IH items k e (Some (encode_token e))) as (rest & -> & Hcat & Hall).
    + done.
    + unfold e in *. lia.
    + apply decode_encode. unfold e. lia.
    + unfold e in *. lia.
    + eexists. split; [reflexivity|]. split; [|by constructor].
      cbn [concat]. rewrite Hcat.
      replace (Z.to_nat e) with (Z.to_nat o + Z.to_nat (e - o))%nat
        by (unfold e in *; lia).
      rewrite <- drop_drop. apply take_drop.
  - eexists. split; [reflexivity|]. split; [|by repeat constructor].
    cbn [concat]. rewrite app_nil_r. apply take_ge.
    rewrite length_drop. unfold e, Py.len in *. lia.
Qed.

End Exhaustive.

(** C2: for every sequence and every page size [k >= 1], the client that
    starts without a cursor and follows the returned cursors stops after at
    most [len(items) + 1] requests with [more = false], and the pages it
    has received, put one after the other, are the full sequence: nothing
    is left out, nothing comes twice.  No page is longer than [k]. *)
Theorem paging_exhaustive {A : Type} (items : list A) (k : Z) :
  1 <= k ->
  exists pages : list (list A),
    follow_pages (S (length items)) items k None = Some pages
    /\ concat pages = items
    /\ Forall (fun page => Py.len page <= k) pages.
Proof.
  intros Hk.
  destruct (follow_pages_from (S (length items)) items k 0 None) as (pages & H1 & H2 & H3);
    [done | unfold Py.len; lia | reflexivity | unfold Py.len; lia |].
  exists pages. by rewrite drop_0 in H2.
Qed.

Lemma paging_exhaustive_witness :
  1 <= 2
  /\ exists pages : list (list Z),
       follow_pages 6 [10; 20; 30; 40; 50] 2 None = Some pages
       /\ concat pages = [10; 20; 30; 40; 50]
       /\ Forall (fun page => Py.len page <= 2) pages.
Proof. split; [lia | apply (paging_exhaustive [10; 20; 30; 40; 50] 2); lia]. Defined.

Example paging_exhaustive_example :
  follow_pages 6 [10; 20; 30; 40; 50] 2 None = Some [[10; 20]; [30; 40]; [50]].
Proof. reflexivity. Qed.

Example paging_exhaustive_empty : follow_pages 1 (@nil Z) 3 None = Some [[]].
Proof. reflexivity. Qed.

(** More requests than needed change nothing. *)
Lemma follow_pages_more_fuel {A : Type} (fuel : nat) : forall (items : list A) k next pages,
  follow_pages fuel items k next = Some pages ->
  follow_pages (S fuel) items k next = Some pages.
Proof.
  induction fuel as [|fuel IH]; intros items k next pages; [discriminate|].
  intros H. cbn [follow_pages] in H.
  change (follow_pages (S (S fuel)) items k next) with
    (let '(page, _, more, next_token) := _page items (decode_token next) k in
     if more then (fun rest => page :: rest) <$> follow_pages (S fuel) items k next_token
     else Some [page]).
  destruct (_page items (decode_token next) k) as [[[page total] more] tok].
  destruct more; [|done].
  destruct (follow_pages fuel items k tok) as [rest|] eqn:E; [|discriminate].
  by rewrite (IH _ _ _ _ E).
Qed.

(** With page size 0 the cursor never moves: the client of a non-empty
    sequence is still being told [more] after any number of requests. *)
Lemma follow_pages_zero_size {A : Type} (fuel : nat) (items : list A) :
  items <> [] -> follow_pages fuel items 0 None = None.
Proof.
  intros Hne.
  assert (Hlen : 0 < Py.len items) by (destruct items; [done | unfold Py.len; cbn; lia]).
  assert (forall next, decode_token next = 0 -> follow_pages fuel items 0 next = None) as H.
  { induction fuel as [|fuel IH]; intros next Hdec; [reflexivity|].
    cbn [follow_pages]. rewrite Hdec. unfold _page.
    rewrite Z.max_l, Z.add_0_r, Z.min_l by lia.
    destruct (Z.ltb_spec 0 (Py.len items)); [|lia].
    by rewrite IH. }
  by apply H.
Qed.

(** ** The list endpoints *)

Section EndpointFacts.

Variable cfg : Config.
Variable data_dir : list Snapshot.

Lemma load_objects_capped since limit types :
  0 <= limit -> Py.len (load_objects data_dir since limit types) <= limit.
Proof.
  intros Hl. unfold load_objects, Py.len. rewrite length_take. lia.
Qed.

Lemma page_fields {A : Type} (items : list A) offset page_size :
  let '(page, total, more, next_token) := _page items offset page_size in
  page `sublist_of` items /\ total = Py.len items.
Proof. unfold _page. split; [apply slice_sublist | reflexivity]. Qed.

(** The body of [get_indicators] in terms of the page. *)
Lemma get_indicators_unfold since limit page_size next :
  let items := load_indicators data_dir since 10000 in
  let size := match page_size with
              | None => Py.or_int limit (Py.len items)
              | Some ps => ps
              end in
  let p := _page items (decode_token next) size in
  get_indicators cfg data_dir since limit page_size next
  = {| ib_count := Py.len p.1.1.1;
       ib_total := p.1.1.2;
       ib_more := p.1.2;
       ib_next := p.2;
       ib_sourcesystem := SOURCE_SYSTEM cfg;
       ib_stixobjects := p.1.1.1 |}.
Proof.
  cbn zeta. unfold get_indicators.
  by destruct (_page _ _ _) as [[[page total] more] tok].
Qed.

(** A whole-sequence page: offset 0 and a size equal to the length. *)
Lemma page_whole {A : Type} (items : list A) :
  _page items 0 (Py.len items) = (items, Py.len items, false, None).
Proof.
  unfold _page. rewrite (Z.max_l 0 0) by lia. rewrite Z.add_0_l.
  rewrite (Z.min_l (Py.len items)) by lia.
  rewrite slice_take_drop by (unfold Py.len; lia).
  rewrite Z.ltb_irrefl, Z.sub_0_r.
  change (Z.to_nat 0) with 0%nat. rewrite drop_0.
  rewrite take_ge; [done | unfold Py.len; lia].
Qed.

(** A first page: offset 0 and a positive size. *)
Lemma page_first {A : Type} (items : list A) page_size :
  0 < page_size -> (_page items 0 page_size).1.1.1 = take (Z.to_nat page_size) items.
Proof.
  intros Hps. unfold _page. cbn [fst].
  rewrite (Z.max_l 0 0) by lia. rewrite Z.add_0_l.
  rewrite slice_take_drop by (unfold Py.len; lia).
  rewrite Z.sub_0_r. change (Z.to_nat 0) with 0%nat. rewrite drop_0.
  destruct (Z.le_ge_cases page_size (Py.len items)).
  - by rewrite Z.min_l by lia.
  - rewrite Z.min_r by lia. rewrite !take_ge; (done || unfold Py.len in *; lia).
Qed.

(** All four fields of a first page of positive size. *)
Lemma page_first_fields {A : Type} (items : list A) page_size :
  0 < page_size ->
  _page items 0 page_size
  = (take (Z.to_nat page_size) items, Py.len items, page_size <? Py.len items,
     if page_size <? Py.len items then Some (encode_token page_size) else None).
Proof.
  intros Hps. pose proof (page_first items page_size Hps) as Hfirst.
  unfold _page in *. cbn [fst] in Hfirst. rewrite Hfirst.
  rewrite (Z.max_l 0 0) by lia. rewrite Z.add_0_l.
  destruct (Z.ltb_spec page_size (Py.len items)).
  - rewrite Z.min_l by lia.
    by rewrite (proj2 (Z.ltb_lt page_size (Py.len items))) by lia.
  - rewrite Z.min_r by lia. by rewrite Z.ltb_irrefl.
Qed.

(** The body of [get_collection_objects] for the served collection. *)
Lemma get_collection_objects_unfold since types page_size next :
  let items := load_objects data_dir since 10000 (_parse_types_param types) in
  let p := _page items (decode_token next) page_size in
  get_collection_objects cfg data_dir (COLLECTION_ID cfg) since types page_size next
  = Ok {| ob_objects := p.1.1.1;
          ob_sourcesystem := SOURCE_SYSTEM cfg;
          ob_total := p.1.1.2;
          ob_more := p.1.2;
          ob_next := p.2 |}.
Proof.
  cbn zeta. unfold get_collection_objects, _collect_items.
  rewrite String.eqb_refl. cbn [negb].
  by destruct (_page _ _ _) as [[[page total] more] tok].
Qed.

(** The body of [taxii_objects] for the served collection. *)
Lemma taxii_objects_unfold added_after limit next types :
  let type_list := if TAXII_INDICATORS_ONLY cfg then Some ["indicator"%string]
                   else _parse_types_param types in
  let items := load_objects data_dir added_after 10000 type_list in
  let p := _page items (decode_token next) limit in
  taxii_objects cfg data_dir (COLLECTION_ID cfg) added_after limit next types
  = Ok {| tb_objects := p.1.1.1;
          tb_sourcesystem := SOURCE_SYSTEM cfg;
          tb_more := p.1.2;
          tb_next := p.2 |}.
Proof.
  cbn zeta. unfold taxii_objects, _collect_items.
  rewrite String.eqb_refl. cbn [negb].
  by destruct (_page _ _ _) as [[[page total] more] tok].
Qed.

End EndpointFacts.

(** C4: an absent, empty or malformed cursor decodes to offset 0; decoding
    is a total function, so no such cursor makes a request fail, and each
    of the three list operations answers it as it answers the request
    without a cursor, that is from the start of the sequence: the body of
    each operation is the page at offset 0 of the sequence that the
    operation collects from the store, with the [total], [more] and [next]
    fields of that page, and for a positive page size its objects are the
    first [page_size] items of the sequence. *)
Theorem invalid_cursor_starts_at_zero (cfg : Config) (data_dir : list Snapshot)
    (next : option string) :
  invalid_cursor next ->
  decode_token next = 0
  /\ (forall since limit page_size,
        get_indicators cfg data_dir since limit page_size next
        = get_indicators cfg data_dir since limit page_size None)
  /\ (forall collection_id since types page_size,
        get_collection_objects cfg data_dir collection_id since types page_size next
        = get_collection_objects cfg data_dir collection_id since types page_size None)
  /\ (forall collection_id added_after limit types,
        taxii_objects cfg data_dir collection_id added_after limit next types
        = taxii_objects cfg data_dir collection_id added_after limit None types)
  /\ (forall since limit page_size,
        0 < page_size ->
        ib_stixobjects (get_indicators cfg data_dir since limit (Some page_size) next)
        = take (Z.to_nat page_size) (load_indicators data_dir since 10000))
  /\ (forall since limit page_size,
        let items := load_indicators data_dir since 10000 in
        let size := match page_size with
                    | None => Py.or_int limit (Py.len items)
                    | Some ps => ps
                    end in
        let body := get_indicators cfg data_dir since limit page_size next in
        (ib_stixobjects body, ib_total body, ib_more body, ib_next body)
        = _page items 0 size
        /\ ib_count body = Py.len (ib_stixobjects body)
        /\ (0 < size ->
            ib_stixobjects body = take (Z.to_nat size) items
            /\ ib_total body = Py.len items
            /\ ib_more body = (size <? Py.len items)
            /\ ib_next body
               = if size <? Py.len items then Some (encode_token size) else None))
  /\ (forall since types page_size,
        let items := load_objects data_dir since 10000 (_parse_types_param types) in
        exists body,
          get_collection_objects cfg data_dir (COLLECTION_ID cfg) since types page_size next
          = Ok body
          /\ (ob_objects body, ob_total body, ob_more body, ob_next body)
             = _page items 0 page_size
          /\ (0 < page_size ->
              ob_objects body = take (Z.to_nat page_size) items
              /\ ob_total body = Py.len items
              /\ ob_more body = (page_size <? Py.len items)
              /\ ob_next body
                 = if page_size <? Py.len items then Some (encode_token page_size)
                   else None))
  /\ (forall added_after limit types,
        let type_list := if TAXII_INDICATORS_ONLY cfg then Some ["indicator"%string]
                         else _parse_types_param types in
        let items := load_objects data_dir added_after 10000 type_list in
        exists body,
          taxii_objects cfg data_dir (COLLECTION_ID cfg) added_after limit next types
          = Ok body
          /\ (tb_objects body, Py.len items, tb_more body, tb_next body)
             = _page items 0 limit
          /\ (0 < limit ->
              tb_objects body = take (Z.to_nat limit) items
              /\ tb_more body = (limit <? Py.len items)
              /\ tb_next body
                 = if limit <? Py.len items then Some (encode_token limit) else None)).
Proof.
  intros Hinv. pose proof (decode_invalid next Hinv) as Hdec.
  split; [done|].
  split; [|split; [|split; [|split; [|split; [|split]]]]].
  - intros. unfold get_indicators. by rewrite Hdec.
  - intros. unfold get_collection_objects. by rewrite Hdec.
  - intros. unfold taxii_objects. by rewrite Hdec.
  - intros since limit page_size Hps.
    rewrite get_indicators_unfold. cbn [ib_stixobjects]. rewrite Hdec.
    by apply page_first.
  - intros since limit page_size items size body. subst body.
    rewrite get_indicators_unfold. fold items. fold size. rewrite Hdec.
    cbn [ib_stixobjects ib_total ib_more ib_next ib_count].
    split; [by destruct (_page items 0 size) as [[[page total] more] tok]|].
    split; [reflexivity|].
    intros Hsize. by rewrite (page_first_fields items size Hsize).
  - intros since types page_size items.
    rewrite get_collection_objects_unfold. fold items. rewrite Hdec.
    eexists. split; [reflexivity|].
    cbn [ob_objects ob_total ob_more ob_next].
    split; [by destruct (_page items 0 page_size) as [[[page total] more] tok]|].
    intros Hsize. by rewrite (page_first_fields items page_size Hsize).
  - intros added_after limit types type_list items.
    rewrite taxii_objects_unfold. fold type_list. fold items. rewrite Hdec.
    eexists. split; [reflexivity|].
    cbn [tb_objects tb_more tb_next].
    split.
    + pose proof (page_fields items 0 limit) as Hf.
      destruct (_page items 0 limit) as [[[page total] more] tok].
      destruct Hf as [_ ->]. reflexivity.
    + intros Hsize. by rewrite (page_first_fields items limit Hsize).
Qed.

Example sample_store_indicators :
  obj_id <$> load_indicators sample_store None 10000
  = ["indicator--1"; "indicator--3"; "indicator--4"]%string.
Proof. reflexivity. Qed.

Example sample_store_since :
  obj_id <$> load_objects sample_store (Some "2025-01-02"%string) 10000 None
  = ["indicator--3"; "indicator--4"]%string.
Proof. reflexivity. Qed.

Lemma invalid_cursor_starts_at_zero_witness :
  invalid_cursor (Some "garbage"%string)
  /\ decode_token (Some "garbage"%string) = 0
  /\ ib_stixobjects
       (get_indicators default_config sample_store None None (Some 2)
          (Some "garbage"%string))
     = take 2 (load_indicators sample_store None 10000)
  /\ (exists body,
        get_collection_objects default_config sample_store "indicators" None None 2
          (Some "garbage"%string) = Ok body
        /\ obj_id <$> ob_objects body = ["indicator--1"; "malware--2"]%string
        /\ ob_total body = 4
        /\ ob_more body = true
        /\ ob_next body = Some (encode_token 2))
  /\ (exists body,
        taxii_objects default_config sample_store "indicators" None 3
          (Some "garbage"%string) (Some "indicator"%string) = Ok body
        /\ obj_id <$> tb_objects body
           = ["indicator--1"; "indicator--3"; "indicator--4"]%string
        /\ tb_more body = false
        /\ tb_next body = None).
Proof.
  assert (Hinv : invalid_cursor (Some "garbage"%string)) by reflexivity.
  destruct (invalid_cursor_starts_at_zero default_config sample_store
              (Some "garbage"%string) Hinv)
    as (Hdec & _ & _ & _ & Hfirst & _ & Hcoll & Htaxii).
  split; [exact Hinv|]. split; [exact Hdec|].
  split; [apply (Hfirst None None 2); lia|]. split.
  - destruct (Hcoll None None 2) as (body & Hrun & _ & Hpos).
    destruct Hpos as (Hobjs & Htotal & Hmore & Hnext); [lia|].
    exists body. split; [exact Hrun|].
    rewrite Hobjs, Htotal, Hmore, Hnext. by vm_compute.
  - destruct (Htaxii None 3 (Some "indicator"%string)) as (body & Hrun & _ & Hpos).
    destruct Hpos as (Hobjs & Hmore & Hnext); [lia|].
    exists body. split; [exact Hrun|].
    rewrite Hobjs, Hmore, Hnext. by vm_compute.
Defined.

(** C5, as the code has it: without [page_size] the page size is [limit]
    when a limit other than 0 was given, and the length of the filtered
    result when no limit was given or the limit is 0 (which Python's [or]
    treats like an absent one); in the second case a request without a
    valid cursor gets the whole result in one page. *)
Theorem default_page_size (cfg : Config) (data_dir : list Snapshot)
    (since : option string) (limit : option Z) (next : option string) :
  let items := load_indicators data_dir since 10000 in
  (forall l : Z, limit = Some l -> l <> 0 ->
     get_indicators cfg data_dir since limit None next
     = get_indicators cfg data_dir since limit (Some l) next)
  /\ (limit = None \/ limit = Some 0 ->
      get_indicators cfg data_dir since limit None next
      = get_indicators cfg data_dir since limit (Some (Py.len items)) next
      /\ (decode_token next = 0 ->
          let body := get_indicators cfg data_dir since limit None next in
          ib_stixobjects body = items
          /\ ib_count body = Py.len items
          /\ ib_total body = Py.len items
          /\ ib_more body = false
          /\ ib_next body = None)).
Proof.
  intros items. split.
  - intros l -> Hl. unfold get_indicators, Py.or_int.
    destruct (Z.eqb_spec l 0); [done | reflexivity].
  - intros Hlimit.
    assert (Py.or_int limit (Py.len items) = Py.len items) as Hor
      by (destruct Hlimit as [-> | ->]; reflexivity).
    split.
    + unfold get_indicators. fold items. by rewrite Hor.
    + intros Hdec. cbn zeta. rewrite get_indicators_unfold. cbn zeta.
      fold items. rewrite Hor, Hdec, page_whole. done.
Qed.

Lemma default_page_size_witness :
  get_indicators default_config sample_store None (Some 2) None None
  = get_indicators default_config sample_store None (Some 2) (Some 2) None
  /\ ib_stixobjects (get_indicators default_config sample_store None None None None)
     = load_indicators sample_store None 10000
  /\ ib_more (get_indicators default_config sample_store None (Some 0) None None) = false.
Proof.
  pose proof (default_page_size default_config sample_store None (Some 2) None) as [H2 _].
  pose proof (default_page_size default_config sample_store None None None) as [_ HN].
  pose proof (default_page_size default_config sample_store None (Some 0) None) as [_ H0].
  split; [apply (H2 2); [reflexivity | lia]|].
  split.
  - destruct (HN (or_introl eq_refl)) as [_ H]. apply (H eq_refl).
  - destruct (H0 (or_intror eq_refl)) as [_ H]. apply (H eq_refl).
Defined.

(** The statement of C5 fails on the code for [limit = 0]: the page size
    is then the length of the result, not the limit. *)
Lemma default_page_size_not_zero_limit :
  ~ (forall (cfg : Config) (data_dir : list Snapshot) (since : option string)
            (l : Z) (next : option string),
       get_indicators cfg data_dir since (Some l) None next
       = get_indicators cfg data_dir since (Some l) (Some l) next).
Proof.
  intros H. specialize (H default_config sample_store None 0 None).
  apply (f_equal ib_count) in H. vm_compute in H. discriminate H.
Qed.

Example zero_limit_returns_everything :
  ib_count (get_indicators default_config sample_store None (Some 0) None None) = 3
  /\ ib_count (get_indicators default_config sample_store None (Some 0) (Some 0) None) = 0.
Proof. split; reflexivity. Qed.

(** C10: each list operation reads the merged view with the limit 10000, so
    whatever the snapshots hold, the reported total is at most 10000 and
    every page is drawn from the at most 10000 objects that were read. *)
Theorem list_operations_capped (cfg : Config) (data_dir : list Snapshot) :
  (forall since limit page_size next,
     let items := load_indicators data_dir since 10000 in
     let body := get_indicators cfg data_dir since limit page_size next in
     Py.len items <= 10000
     /\ ib_total body = Py.len items
     /\ ib_stixobjects body `sublist_of` items
     /\ ib_count body <= 10000)
  /\ (forall collection_id since types page_size next,
        let items := load_objects data_dir since 10000 (_parse_types_param types) in
        Py.len items <= 10000
        /\ when_ok (fun body =>
                      ob_total body = Py.len items
                      /\ ob_objects body `sublist_of` items
                      /\ Py.len (ob_objects body) <= 10000)
             (get_collection_objects cfg data_dir collection_id since types page_size next))
  /\ (forall collection_id added_after limit next types,
        let type_list := if TAXII_INDICATORS_ONLY cfg then Some ["indicator"%string]
                         else _parse_types_param types in
        let items := load_objects data_dir added_after 10000 type_list in
        Py.len items <= 10000
        /\ when_ok (fun body =>
                      tb_objects body `sublist_of` items
                      /\ Py.len (tb_objects body) <= 10000)
             (taxii_objects cfg data_dir collection_id added_after limit next types)).
Proof.
  assert (Hcap : forall since types, Py.len (load_objects data_dir since 10000 types) <= 10000)
    by (intros; by apply load_objects_capped).
  assert (Hsub : forall (l items : list IntelObject),
            l `sublist_of` items -> Py.len items <= 10000 -> Py.len l <= 10000).
  { intros l items Hl Hi. apply sublist_length in Hl. unfold Py.len in *. lia. }
  split; [|split].
  - intros since limit page_size next items body.
    assert (Py.len items <= 10000) as Hitems by apply Hcap.
    subst body. rewrite get_indicators_unfold. cbn zeta. fold items.
    cbn [ib_total ib_stixobjects ib_count].
    match goal with |- context [_page items ?o ?s] =>
      pose proof (page_fields items o s) as Hp;
      destruct (_page items o s) as [[[page total] more] tok] end.
    destruct Hp as [Hp1 Hp2]. cbn [fst snd]. eauto.
  - intros collection_id since types page_size next items.
    split; [apply Hcap|].
    unfold get_collection_objects, _collect_items. fold items.
    destruct (negb _); [exact I|].
    match goal with |- context [_page items ?o ?s] =>
      pose proof (page_fields items o s) as Hp;
      destruct (_page items o s) as [[[page total] more] tok] end.
    destruct Hp as [Hp1 Hp2]. cbn. split; [done|]. split; [done|].
    eapply Hsub; [done | apply Hcap].
  - intros collection_id added_after limit next types type_list items.
    split; [apply Hcap|].
    unfold taxii_objects, _collect_items. fold type_list. fold items.
    destruct (negb _); [exact I|].
    match goal with |- context [_page items ?o ?s] =>
      pose proof (page_fields items o s) as Hp;
      destruct (_page items o s) as [[[page total] more] tok] end.
    destruct Hp as [Hp1 Hp2]. cbn. split; [done|].
    eapply Hsub; [done | apply Hcap].
Qed.

(** A data directory with one snapshot of 10001 indicators: the reported
    total is 10000. *)
Example cap_bites :
  let big := [mkSnapshot "indicators_big.json" 1
                (Some (replicate (Z.to_nat 10001) (mkObject "indicator--1" "indicator" "2025")))]%string in
  ib_total (get_indicators default_config big None None (Some 1) None) = 10000.
Proof. vm_compute. reflexivity. Qed.

(** ** The retention reaper *)

Section ReaperFacts.

Import Reaper.

Implicit Types (fs : gmap string Z) (walk : list (string * list string)).
Implicit Types (e : string * string) (es : list (string * string)).

Lemma for_each_app {E S X : Type} (body : S -> X -> result E S) xs ys s :
  for_each body (xs ++ ys) s = (s' ← for_each body xs s; for_each body ys s').
Proof.
  revert s. induction xs as [|x xs IH]; intros s; [reflexivity|].
  cbn [app for_each]. destruct (body s x); [apply IH | reflexivity].
Qed.

Lemma for_each_fmap {E S X Y : Type} (body : S -> Y -> result E S) (f : X -> Y) xs s :
  for_each body (f <$> xs) s = for_each (fun s x => body s (f x)) xs s.
Proof.
  revert s. induction xs as [|x xs IH]; intros s; [reflexivity|].
  cbn [fmap list_fmap for_each]. destruct (body s (f x)); [apply IH | reflexivity].
Qed.

(** The two nested loops visit the entries one after the other. *)
Lemma sweep_walk_entries threshold walk st :
  for_each (sweep_dir threshold) walk st
  = for_each (sweep_entry threshold) (entries walk) st.
Proof.
  revert st. induction walk as [|[root files] walk IH]; intros st; [reflexivity|].
  cbn [for_each entries]. rewrite for_each_app, for_each_fmap.
  change (sweep_dir threshold st (root, files))
    with (for_each (sweep_file threshold root) files st).
  change (for_each (fun s x => sweep_entry threshold s (root, x)) files st)
    with (for_each (sweep_file threshold root) files st).
  destruct (for_each (sweep_file threshold root) files st); [apply IH | reflexivity].
Qed.


Lemma sweep_entry_cons threshold e es fs deleted :
  for_each (sweep_entry threshold) (e :: es) (fs, deleted)
  = (s' ← (if named e then
             match fs !! path_of e with
             | None => Raise (FileNotFoundError (path_of e))
             | Some file_mtime =>
                 if file_mtime <? threshold then
                   Success (delete (path_of e) fs, deleted ++ [e.2])
                 else Success (fs, deleted)
             end
           else Success (fs, deleted));
     for_each (sweep_entry threshold) es s').
Proof. reflexivity. Qed.


End ReaperFacts.

Lemma reaper_threshold (now h : Z) :
  Reaper.datetime_min <= now <= Reaper.datetime_max ->
  Reaper.datetime_min <= now - h * Reaper.us_per_hour <= Reaper.datetime_max ->
  (Reaper.timedelta_hours h ≫= Reaper.datetime_sub now)
  = Success (now - h * Reaper.us_per_hour).
Proof.
  intros Hnow Hthr. unfold Reaper.timedelta_hours, Reaper.datetime_sub.
  set (us := h * Reaper.us_per_hour) in *.
  assert (-999999999 <= us / Reaper.us_per_day <= 999999999) as [Hlo Hhi].
  { unfold Reaper.us_per_day, Reaper.us_per_hour, Reaper.datetime_min,
      Reaper.datetime_max in *.
    Z.div_mod_to_equations. lia. }
  apply Z.leb_le in Hlo, Hhi. rewrite Hlo, Hhi. cbn [andb mbind result_bind].
  destruct Hthr as [H1 H2]. apply Z.leb_le in H1, H2. by rewrite H1, H2.
Qed.






(** Lower-casing moves the capital letters of ASCII and of the Latin-1
    block, 56 code points in all, up by 32 and keeps the other 200. *)
Example lower_char_table :
  List.filter (fun n => negb (N_of_ascii (Str.lower_char (ascii_of_N n)) =? n)%N)
    (N.of_nat <$> seq 0 256)
  = N.of_nat <$> (seq 65 26 ++ seq 192 23 ++ seq 216 7)
  /\ List.forallb
       (fun n => (N_of_ascii (Str.lower_char (ascii_of_N n)) =? n + 32)%N)
       (N.of_nat <$> (seq 65 26 ++ seq 192 23 ++ seq 216 7))
     = true.
Proof. split; vm_compute; reflexivity. Qed.

(** An interval too long for [timedelta] makes the request fail before any
    file is looked at. *)
Example reap_overflow :
  Reaper.delete_old_ti_files sample_fs sample_walk sample_now 20000000
  = Raise Reaper.OverflowError.
Proof. vm_compute. reflexivity. Qed.




(** ** The regeneration scheduler *)

Section SchedulerFacts.

Import Scheduler.

Lemma loop_body_ordinary cfg o :
  ordinary o -> loop_body cfg o = (turn_trace cfg 10 o, None).
Proof. destruct o as [|[msg|msg]|[msg|msg]]; cbn; intros H; (done || reflexivity). Qed.

Lemma loop_runs cfg (turns : nat) : forall outcomes,
  (forall i, ordinary (outcomes i)) ->
  _loop cfg outcomes turns
  = (concat ((fun i => turn_trace cfg 10 (outcomes i)) <$> seq 0 turns), Running).
Proof.
  induction turns as [|turns IH]; intros outcomes Hord; [reflexivity|].
  cbn [_loop]. rewrite loop_body_ordinary by apply Hord.
  rewrite IH by (intros i; apply Hord).
  cbn [seq fmap list_fmap concat]. do 2 f_equal.
  rewrite <- seq_shift. rewrite <- list_fmap_compose. reflexivity.
Qed.

(** An exception that is not an [Exception] ends the task. *)
Lemma loop_body_escapes cfg msg :
  loop_body cfg (GenerateRaises (BaseException msg))
  = ([EvSleep (GENERATE_EVERY_SECONDS cfg); EvGenerate (MIN_COUNT cfg) (MAX_COUNT cfg)],
     Some (BaseException msg)).
Proof. reflexivity. Qed.

End SchedulerFacts.

(** C7, as the code has it: with generate-on-start enabled and a start-up
    cycle that completes, exactly one generate-and-write cycle comes before
    the first sleep of the loop; every turn of the loop then sleeps the
    configured interval and runs a cycle, and a turn whose cycle fails with
    an [Exception] logs it and sleeps a fixed 10 seconds before the next
    turn.  After any number of turns the task is still running: no such
    failure leaves the loop.  The 10 seconds are shorter than the interval
    whenever the configured interval is above 10 seconds, as the default
    of 7200 is. *)
Theorem scheduler_keeps_running (cfg : Config)
    (outcomes : nat -> Scheduler.cycle_outcome) (turns : nat) :
  GENERATE_ON_START cfg = true ->
  outcomes O = Scheduler.Completes ->
  (forall i, ordinary (outcomes (S i))) ->
  Scheduler._start_generator cfg outcomes turns
  = ([Scheduler.EvGenerate (MIN_COUNT cfg) (MAX_COUNT cfg); Scheduler.EvWrite]
       ++ concat ((fun i => turn_trace cfg 10 (outcomes (S i))) <$> seq 0 turns),
     Scheduler.Running)
  /\ (forall i, exists rest,
        turn_trace cfg 10 (outcomes (S i))
        = Scheduler.EvSleep (GENERATE_EVERY_SECONDS cfg)
            :: Scheduler.EvGenerate (MIN_COUNT cfg) (MAX_COUNT cfg) :: rest)
  /\ (forall i, outcomes (S i) <> Scheduler.Completes ->
        exists before line,
          Scheduler.loop_body cfg (outcomes (S i))
          = (before ++ [Scheduler.EvPrint line; Scheduler.EvSleep 10], None))
  /\ (10 < GENERATE_EVERY_SECONDS cfg ->
        forall i before line backoff,
          Scheduler.loop_body cfg (outcomes (S i))
          = (before ++ [Scheduler.EvPrint line; Scheduler.EvSleep backoff], None) ->
          backoff < GENERATE_EVERY_SECONDS cfg).
Proof.
  intros Hstart Hfirst Hord. split; [|split; [|split]].
  - unfold Scheduler._start_generator. rewrite Hstart, Hfirst.
    cbn [Scheduler.cycle]. by rewrite loop_runs.
  - intros i. destruct (outcomes (S i)) as [|e|e]; cbn; eauto.
  - intros i Hfail. specialize (Hord i). rewrite loop_body_ordinary by done.
    destruct (outcomes (S i)) as [|[msg|msg]|[msg|msg]]; try done.
    + by exists [Scheduler.EvSleep (GENERATE_EVERY_SECONDS cfg);
                Scheduler.EvGenerate (MIN_COUNT cfg) (MAX_COUNT cfg)], ("[generator] error: " +:+ msg).
    + by exists [Scheduler.EvSleep (GENERATE_EVERY_SECONDS cfg);
                Scheduler.EvGenerate (MIN_COUNT cfg) (MAX_COUNT cfg);
                Scheduler.EvWrite], ("[generator] error: " +:+ msg).
  - intros Hinterval i before line backoff Hbody.
    specialize (Hord i). rewrite loop_body_ordinary in Hbody by done.
    injection Hbody as Hbody.
    assert (last (turn_trace cfg 10 (outcomes (S i))) = Some (Scheduler.EvSleep backoff)) as Hlast.
    { rewrite Hbody. rewrite last_app. reflexivity. }
    destruct (outcomes (S i)) as [|[msg|msg]|[msg|msg]]; cbn in Hlast, Hord;
      try done; injection Hlast as <-; lia.
Qed.

Lemma sample_outcomes_ordinary : forall i, ordinary (sample_outcomes (S i)).
Proof. intros [|[|[|i]]]; exact I. Defined.

Lemma scheduler_keeps_running_witness :
  GENERATE_ON_START default_config = true
  /\ sample_outcomes O = Scheduler.Completes
  /\ Scheduler._start_generator default_config sample_outcomes 4
     = ([Scheduler.EvGenerate 10 25; Scheduler.EvWrite]
          ++ concat ((fun i => turn_trace default_config 10 (sample_outcomes (S i)))
                       <$> seq 0 4),
        Scheduler.Running).
Proof.
  split; [reflexivity|]. split; [reflexivity|].
  apply (scheduler_keeps_running default_config sample_outcomes 4
           eq_refl eq_refl sample_outcomes_ordinary).
Defined.

Example sample_run :
  Scheduler._start_generator default_config sample_outcomes 4
  = ([ Scheduler.EvGenerate 10 25; Scheduler.EvWrite;
       Scheduler.EvSleep 7200; Scheduler.EvGenerate 10 25; Scheduler.EvWrite;
       Scheduler.EvSleep 7200; Scheduler.EvGenerate 10 25; Scheduler.EvWrite;
       Scheduler.EvSleep 7200; Scheduler.EvGenerate 10 25; Scheduler.EvWrite;
       Scheduler.EvPrint "[generator] error: disk full"; Scheduler.EvSleep 10;
       Scheduler.EvSleep 7200; Scheduler.EvGenerate 10 25; Scheduler.EvWrite ],
     Scheduler.Running).
Proof. reflexivity. Qed.

(** The statement of C7 fails on the code: the backoff is the constant 10,
    which is not shorter than a configured interval of 5 seconds. *)
Lemma scheduler_backoff_not_always_shorter :
  ~ (forall (cfg : Config) (o : Scheduler.cycle_outcome) before line backoff,
       Scheduler.loop_body cfg o
       = (before ++ [Scheduler.EvPrint line; Scheduler.EvSleep backoff], None) ->
       backoff < GENERATE_EVERY_SECONDS cfg).
Proof.
  intros H.
  specialize (H short_interval_config
                (Scheduler.GenerateRaises (Scheduler.Exception "boom"))
                [Scheduler.EvSleep 5; Scheduler.EvGenerate 10 25]
                "[generator] error: boom"%string 10 eq_refl).
  cbn in H. lia.
Qed.

(** The start-up cycle runs outside the [try]: its failure leaves
    [_start_generator] and the loop is never started. *)
Example startup_failure_escapes (turns : nat) :
  Scheduler._start_generator default_config
    (fun _ => Scheduler.GenerateRaises (Scheduler.Exception "boom")) turns
  = ([Scheduler.EvGenerate 10 25], Scheduler.Raised (Scheduler.Exception "boom")).
Proof. reflexivity. Qed.

(** * Further properties *)

(** ** The paging helper on every input *)

(** X1: whatever the offset and the page size, also a negative one, the
    page is made of items of the sequence in their order, it is never
    longer than the reported total, the total is the length of the
    sequence, and a next token is returned exactly when [more] is set. *)
Theorem page_coherent {A : Type} (items : list A) (offset page_size : Z) :
  let '(page, total, more, next_token) := _page items offset page_size in
  page `sublist_of` items
  /\ Py.len page <= total
  /\ total = Py.len items
  /\ (more = true <-> is_Some next_token)
  /\ (more = true <-> Z.max offset 0 + page_size < Py.len items).
Proof.
  unfold _page.
  set (end_ := Z.min (Z.max offset 0 + page_size) (Py.len items)).
  split; [apply slice_sublist|]. split.
  { pose proof (sublist_length _ _ (slice_sublist items (Z.max offset 0) end_)).
    unfold Py.len. lia. }
  split; [reflexivity|].
  destruct (Z.ltb_spec end_ (Py.len items)) as [Hlt|Hge]; split.
  - split; [by eexists | done].
  - split; [unfold end_ in Hlt; lia | done].
  - split; [done | by intros [? ?]].
  - split; [done | unfold end_ in Hge; lia].
Qed.

(** X2: an offset at or past the end of the sequence, with a page size that
    is not negative, gives the empty page, [more = false] and no token. *)
Theorem page_past_the_end {A : Type} (items : list A) (offset page_size : Z) :
  0 <= page_size -> Py.len items <= offset ->
  _page items offset page_size = ([], Py.len items, false, None).
Proof.
  intros Hps Hoff. unfold _page.
  assert (0 <= Py.len items) by (unfold Py.len; lia).
  rewrite (Z.max_l offset 0) by lia.
  rewrite (Z.min_r (offset + page_size)) by lia.
  rewrite Z.ltb_irrefl.
  assert (Py.slice items offset (Py.len items) = []) as ->; [|reflexivity].
  apply nil_length_Z. rewrite slice_length by lia. lia.
Qed.

Lemma page_past_the_end_witness :
  0 <= 2 /\ Py.len sample_objects <= 7
  /\ _page sample_objects 7 2 = ([], Py.len sample_objects, false, None).
Proof.
  assert (0 <= 2) as H1 by lia.
  assert (Py.len sample_objects <= 7) as H2 by (vm_compute; discriminate).
  split; [exact H1|]. split; [exact H2|].
  exact (page_past_the_end sample_objects 7 2 H1 H2).
Defined.

(** X3: with a positive page size, a page that reports [more] is full (it
    holds exactly [page_size] items) and its token is the one of
    [start + page_size], strictly after [start]; a page that does not
    report [more] holds everything from [start] to the end. *)
Theorem page_progress {A : Type} (items : list A) (offset page_size : Z) :
  0 < page_size ->
  let start := Z.max offset 0 in
  let '(page, total, more, next_token) := _page items offset page_size in
  (more = true ->
     Py.len page = page_size
     /\ next_token = Some (encode_token (start + page_size))
     /\ start < start + page_size < total)
  /\ (more = false -> page = drop (Z.to_nat start) items /\ next_token = None).
Proof.
  intros Hps start. unfold _page. fold start.
  assert (0 <= start) by (unfold start; lia).
  assert (0 <= Py.len items) by (unfold Py.len; lia).
  destruct (Z.ltb_spec (Z.min (start + page_size) (Py.len items)) (Py.len items))
    as [Hlt|Hge]; (split; [|done || intros _]); try done.
  - intros _. rewrite Z.min_l in * by lia.
    split; [|split; [reflexivity | lia]].
    unfold Py.len at 1. rewrite slice_length by lia. lia.
  - split; [|reflexivity]. rewrite Z.min_r in * by lia.
    destruct (Z.le_gt_cases start (Py.len items)).
    + rewrite slice_take_drop by lia. apply take_ge.
      rewrite length_drop. unfold Py.len in *. lia.
    + rewrite drop_ge by (unfold Py.len in *; lia).
      apply nil_length_Z. rewrite slice_length by lia. lia.
Qed.

Lemma page_progress_witness :
  0 < 2
  /\ let '(page, total, more, next_token) := _page sample_objects 0 2 in
     (more = true ->
        Py.len page = 2
        /\ next_token = Some (encode_token (Z.max 0 0 + 2))
        /\ Z.max 0 0 < Z.max 0 0 + 2 < total)
     /\ (more = false ->
           page = drop (Z.to_nat (Z.max 0 0)) sample_objects /\ next_token = None).
Proof. split; [lia | apply (page_progress sample_objects 0 2); lia]. Defined.

(** X4: two pages that follow each other make up the page of their joint
    size: the page of size [k] at an offset, followed by the page of size
    [k'] at the position where the first one stops, is the page of size
    [k + k'] at the offset. *)
Theorem page_adjacent {A : Type} (items : list A) (offset k k' : Z) :
  0 <= k -> 0 <= k' ->
  (_page items offset k).1.1.1 ++ (_page items (Z.max offset 0 + k) k').1.1.1
  = (_page items offset (k + k')).1.1.1.
Proof.
  intros Hk Hk'. unfold _page. cbn [fst].
  set (start := Z.max offset 0).
  assert (0 <= start) by (unfold start; lia).
  assert (0 <= Py.len items) by (unfold Py.len; lia).
  rewrite (Z.max_l (start + k) 0) by lia.
  rewrite !slice_nonneg by lia.
  rewrite !(Z.min_l (Z.min _ (Py.len items)) (Py.len items)) by lia.
  set (a := Z.min start (Py.len items)).
  set (b := Z.min (start + k) (Py.len items)).
  set (c := Z.min (start + k + k') (Py.len items)).
  replace (start + (k + k')) with (start + k + k') by lia. fold c.
  replace (Z.to_nat b) with (Z.to_nat a + Z.to_nat (b - a))%nat by (unfold a, b; lia).
  rewrite <- drop_drop, take_take_drop. f_equal. unfold a, b, c. lia.
Qed.

Lemma page_adjacent_witness :
  0 <= 1 /\ 0 <= 2
  /\ (_page sample_objects 0 1).1.1.1 ++ (_page sample_objects (Z.max 0 0 + 1) 2).1.1.1
     = (_page sample_objects 0 (1 + 2)).1.1.1.
Proof.
  split; [lia|]. split; [lia|]. apply (page_adjacent sample_objects 0 1 2); lia.
Defined.

(** ** The list handlers *)

(** X5: [limit] never bounds what the indicators operation gives out.  With
    a [page_size] it has no effect at all; without one, a limit between 0
    and the total only sizes the first page: the total is still the whole
    result, [more] is set and the token of [limit] leads on. *)
Theorem limit_is_only_a_page_size (cfg : Config) (data_dir : list Snapshot)
    (since : option string) (l : Z) :
  let items := load_indicators data_dir since 10000 in
  0 < l < Py.len items ->
  let body := get_indicators cfg data_dir since (Some l) None None in
  ib_stixobjects body = take (Z.to_nat l) items
  /\ ib_count body = l
  /\ ib_total body = Py.len items
  /\ ib_more body = true
  /\ ib_next body = Some (encode_token l)
  /\ (forall limit' page_size next,
        get_indicators cfg data_dir since (Some l) (Some page_size) next
        = get_indicators cfg data_dir since limit' (Some page_size) next).
Proof.
  intros items Hl body. subst body.
  rewrite get_indicators_unfold. cbn zeta. fold items.
  assert (Py.or_int (Some l) (Py.len items) = l) as ->.
  { unfold Py.or_int. destruct (Z.eqb_spec l 0); [lia | reflexivity]. }
  cbn [decode_token ib_stixobjects ib_count ib_total ib_more ib_next].
  rewrite (page_first_fields items l (proj1 Hl)). cbn [fst snd].
  rewrite (proj2 (Z.ltb_lt l (Py.len items))) by lia.
  repeat split; try done.
  unfold Py.len in *. rewrite length_take. lia.
Qed.

Lemma limit_is_only_a_page_size_witness :
  let items := load_indicators sample_store None 10000 in
  0 < 2 < Py.len items
  /\ ib_count (get_indicators default_config sample_store None (Some 2) None None) = 2
  /\ ib_total (get_indicators default_config sample_store None (Some 2) None None)
     = Py.len items
  /\ ib_more (get_indicators default_config sample_store None (Some 2) None None) = true.
Proof.
  cbn zeta.
  assert (0 < 2 < Py.len (load_indicators sample_store None 10000)) as H
    by (vm_compute; split; reflexivity).
  split; [exact H|].
  destruct (limit_is_only_a_page_size default_config sample_store None 2 H)
    as (_ & H1 & H2 & H3 & _).
  split; [exact H1|]. split; [exact H2 | exact H3].
Defined.

(** X6: the collection handlers serve exactly the collection that the
    listings advertise: an identifier from [list_collections] (or
    [taxii_collections]) gets a body, every other identifier gets the error
    404 with the detail "Collection not found". *)
Theorem collection_id_gate (cfg : Config) (env : Settings) (data_dir : list Snapshot)
    (collection_id : string) (since types next : option string) (page_size : Z) :
  (collection_id ∈ ci_id <$> list_collections cfg env
   <-> exists body,
         get_collection_objects cfg data_dir collection_id since types page_size next
         = Ok body)
  /\ (collection_id ∉ ci_id <$> list_collections cfg env
      <-> get_collection_objects cfg data_dir collection_id since types page_size next
          = HTTPException 404 "Collection not found")
  /\ (collection_id ∈ ci_id <$> taxii_collections cfg env
      <-> exists body,
            taxii_objects cfg data_dir collection_id since page_size next types = Ok body)
  /\ (collection_id ∉ ci_id <$> taxii_collections cfg env
      <-> taxii_objects cfg data_dir collection_id since page_size next types
          = HTTPException 404 "Collection not found").
Proof.
  assert (Hin : forall l : list CollectionInfo,
            ci_id <$> l = [COLLECTION_ID cfg] ->
            collection_id ∈ ci_id <$> l <-> collection_id = COLLECTION_ID cfg).
  { intros l ->. rewrite elem_of_cons, elem_of_nil. tauto. }
  rewrite !(Hin (list_collections cfg env) eq_refl).
  rewrite ?(Hin (taxii_collections cfg env) eq_refl).
  unfold get_collection_objects, taxii_objects.
  destruct (String.eqb_spec collection_id (COLLECTION_ID cfg)) as [Heq|Hne];
    cbn [negb];
    repeat match goal with
           | |- context [_page ?i ?o ?s] => destruct (_page i o s) as [[[? ?] ?] ?]
           end;
    repeat split; try done; try (by eexists); try (by intros [? ?]).
Qed.

(** X7: when [TAXII_INDICATORS_ONLY] is off, the TAXII objects handler with
    [limit = n] and the collection objects handler with [page_size = n]
    answer every request alike: same page, same [more], same token, or the
    same error. *)
Theorem collection_handlers_agree (cfg : Config) (data_dir : list Snapshot)
    (collection_id : string) (since types next : option string) (n : Z) :
  TAXII_INDICATORS_ONLY cfg = false ->
  same_answer
    (get_collection_objects cfg data_dir collection_id since types n next)
    (taxii_objects cfg data_dir collection_id since n next types).
Proof.
  intros Hflag. unfold get_collection_objects, taxii_objects. rewrite Hflag.
  destruct (negb _); [done|].
  destruct (_page _ _ _) as [[[page total] more] tok]. done.
Qed.

Lemma collection_handlers_agree_witness :
  TAXII_INDICATORS_ONLY default_config = false
  /\ same_answer
       (get_collection_objects default_config sample_store "indicators"
          None (Some "malware"%string) 1 None)
       (taxii_objects default_config sample_store "indicators"
          None 1 None (Some "malware"%string)).
Proof.
  split; [reflexivity|].
  apply (collection_handlers_agree default_config sample_store "indicators"
           None (Some "malware"%string) None 1 eq_refl).
Defined.

(** X8: when [TAXII_INDICATORS_ONLY] is on, the TAXII objects handler pays
    no attention to [types]: whatever the parameter, it answers like the
    collection objects handler asked for the type ["indicator"]. *)
Theorem taxii_indicators_only (cfg : Config) (data_dir : list Snapshot)
    (collection_id : string) (since types next : option string) (n : Z) :
  TAXII_INDICATORS_ONLY cfg = true ->
  same_answer
    (get_collection_objects cfg data_dir collection_id since (Some "indicator"%string) n next)
    (taxii_objects cfg data_dir collection_id since n next types).
Proof.
  intros Hflag. unfold get_collection_objects, taxii_objects. rewrite Hflag.
  destruct (negb _); [done|].
  change (_parse_types_param (Some "indicator"%string)) with (Some ["indicator"%string]).
  destruct (_page _ _ _) as [[[page total] more] tok]. done.
Qed.

Lemma taxii_indicators_only_witness :
  let cfg := mkConfig 7200 true 10 25 "indicators" true "X" in
  TAXII_INDICATORS_ONLY cfg = true
  /\ same_answer
       (get_collection_objects cfg sample_store "indicators" None
          (Some "indicator"%string) 5 None)
       (taxii_objects cfg sample_store "indicators" None 5 None (Some "malware"%string)).
Proof.
  cbn zeta. split; [reflexivity|].
  apply (taxii_indicators_only (mkConfig 7200 true 10 25 "indicators" true "X")
           sample_store "indicators" None (Some "malware"%string) None 5 eq_refl).
Defined.

(** ** The reaper on any walk *)

Lemma for_each_preserves {E S X : Type} (Inv : S -> Prop) (body : S -> X -> result E S) :
  (forall s x s', Inv s -> body s x = Success s' -> Inv s') ->
  forall xs s s', Inv s -> for_each body xs s = Success s' -> Inv s'.
Proof.
  intros Hstep xs. induction xs as [|x xs IH]; intros s s' Hs Hrun.
  - cbn in Hrun. by injection Hrun as <-.
  - cbn [for_each] in Hrun. destruct (body s x) as [s1|e] eqn:Hb; [|discriminate Hrun].
    cbn [mbind result_bind] in Hrun. eapply IH; [|exact Hrun]. by eapply Hstep.
Qed.

Lemma sweep_file_invariant fs threshold root st filename st' :
  sweep_invariant fs threshold st ->
  Reaper.sweep_file threshold root st filename = Success st' ->
  sweep_invariant fs threshold st'.
Proof.
  destruct st as [cur deleted]. intros (Hsub & Hsize & Hnames & Hkeep).
  unfold Reaper.sweep_file. cbn [fst snd] in *.
  destruct (Reaper.is_snapshot_name filename) eqn:Hn; [|by intros [= <-]].
  destruct (cur !! Reaper.path_join root filename) as [m|] eqn:Hm; [|discriminate].
  destruct (Z.ltb_spec m threshold) as [Hold|Hyoung]; intros [= <-]; [|done].
  split; [|split; [|split]]; cbn [fst snd].
  - etrans; [apply delete_subseteq | done].
  - rewrite map_size_delete_Some by eauto.
    assert (size cur <> 0%nat) by (intros H0; apply map_size_empty_inv in H0; by subst).
    unfold Py.len in *. rewrite length_app. cbn [length]. lia.
  - apply Forall_app. split; [done | by repeat constructor].
  - intros p m' Hp Hm'. destruct (decide (p = Reaper.path_join root filename)) as [->|Hne].
    + rewrite (Hkeep _ _ Hp Hm') in Hm. injection Hm as ->. lia.
    + rewrite lookup_delete_ne by done. by apply Hkeep.
Qed.

Lemma sweep_dir_invariant fs threshold st entry st' :
  sweep_invariant fs threshold st ->
  Reaper.sweep_dir threshold st entry = Success st' ->
  sweep_invariant fs threshold st'.
Proof.
  destruct entry as [root files]. unfold Reaper.sweep_dir.
  apply for_each_preserves. intros s x s'. apply sweep_file_invariant.
Qed.

Lemma reaper_threshold_inv now h threshold :
  (Reaper.timedelta_hours h ≫= Reaper.datetime_sub now) = Success threshold ->
  threshold = now - h * Reaper.us_per_hour.
Proof.
  unfold Reaper.timedelta_hours, Reaper.datetime_sub.
  destruct (_ && _); [|discriminate]. cbn [mbind result_bind].
  destruct (_ && _); [|discriminate]. by intros [= <-].
Qed.

(** X9: whatever the walk lists, a request that succeeds has only removed
    files: every file that is left has the modification time it had, the
    number of files that are gone is the reported [total_deleted], which is
    the length of [deleted_files], every reported name starts with
    ["indicators_"] and ends, lower-cased, with [".json"], and no file
    modified at or after [now - h] hours is gone. *)
Theorem reaper_only_removes (fs : gmap string Z) (walk : list (string * list string))
    (now h : Z) (fs' : gmap string Z) (body : Reaper.DeleteBody) :
  Reaper.delete_old_ti_files fs walk now h = Success (fs', body) ->
  fs' ⊆ fs
  /\ Z.of_nat (size fs) - Z.of_nat (size fs') = Reaper.total_deleted body
  /\ Reaper.total_deleted body = Py.len (Reaper.deleted_files body)
  /\ Forall (fun filename =>
               Str.startswith "indicators_" filename = true
               /\ Str.endswith ".json" (Str.lower filename) = true)
       (Reaper.deleted_files body)
  /\ (forall p m, fs !! p = Some m -> now - h * Reaper.us_per_hour <= m ->
        fs' !! p = Some m)
  /\ Reaper.threshold_hours body = h.
Proof.
  unfold Reaper.delete_old_ti_files. intros Hrun.
  destruct (Reaper.timedelta_hours h ≫= Reaper.datetime_sub now) as [threshold|e] eqn:Ht.
  2:{ destruct (Reaper.timedelta_hours h); cbn [mbind result_bind] in *;
        [rewrite Ht in Hrun|]; discriminate Hrun. }
  pose proof (reaper_threshold_inv _ _ _ Ht) as Hthr.
  destruct (Reaper.timedelta_hours h) as [delta|]; [|discriminate Ht].
  cbn [mbind result_bind] in Ht, Hrun. rewrite Ht in Hrun. cbn [mbind result_bind] in Hrun.
  destruct (for_each (Reaper.sweep_dir threshold) walk (fs, [])) as [[cur deleted]|e] eqn:Hsweep;
    [|discriminate Hrun].
  cbn [mbind result_bind] in Hrun. injection Hrun as <- <-.
  assert (sweep_invariant fs threshold (cur, deleted)) as (Hsub & Hsize & Hnames & Hkeep).
  { eapply (for_each_preserves (sweep_invariant fs threshold)); [|
      |exact Hsweep].
    - intros s x s'. apply sweep_dir_invariant.
    - split; [done|]. split; [unfold Py.len; cbn; lia|]. split; [constructor|].
      by intros. }
  cbn [fst snd Reaper.total_deleted Reaper.deleted_files Reaper.threshold_hours] in *.
  subst threshold.
  split; [done|]. split; [lia|]. split; [done|]. split; [|split; [done | done]].
  eapply Forall_impl; [exact Hnames|]. intros f Hf.
  unfold Reaper.is_snapshot_name in Hf. apply andb_true_iff in Hf. tauto.
Qed.

Lemma reaper_only_removes_witness :
  exists fs' body,
    Reaper.delete_old_ti_files sample_fs sample_walk sample_now 6 = Success (fs', body)
    /\ fs' ⊆ sample_fs
    /\ Z.of_nat (size sample_fs) - Z.of_nat (size fs') = Reaper.total_deleted body.
Proof.
  destruct (Reaper.delete_old_ti_files sample_fs sample_walk sample_now 6)
    as [[fs' body]|e] eqn:Hrun; [|vm_compute in Hrun; discriminate Hrun].
  exists fs', body. split; [reflexivity|].
  destruct (reaper_only_removes sample_fs sample_walk sample_now 6 fs' body Hrun)
    as (H1 & H2 & _).
  split; [exact H1 | exact H2].
Defined.

Lemma sweep_entries_missing threshold es : forall fs deleted e,
  e ∈ es -> named e -> fs !! path_of e = None ->
  exists p, for_each (sweep_entry threshold) es (fs, deleted)
            = Raise (Reaper.FileNotFoundError p).
Proof.
  induction es as [|e0 es IH]; intros fs deleted e He Hn Hmiss.
  { by apply elem_of_nil in He. }
  rewrite sweep_entry_cons.
  destruct (named e0) eqn:Hn0.
  - destruct (fs !! path_of e0) as [m|] eqn:Hm0; [|by eexists].
    assert (e ∈ es) as He'.
    { apply elem_of_cons in He as [->|He]; [congruence | done]. }
    destruct (m <? threshold); cbn [mbind result_bind].
    + eapply IH; [exact He' | exact Hn|].
      destruct (decide (path_of e0 = path_of e)) as [->|Hne];
        [apply lookup_delete_eq | by rewrite lookup_delete_ne].
    + by eapply IH.
  - cbn [mbind result_bind].
    assert (e ∈ es) as He'.
    { apply elem_of_cons in He as [->|He]; [|done]. rewrite Hn0 in Hn. by destruct Hn. }
    by eapply IH.
Qed.

(** X10: a file with a snapshot name that the walk lists but that is no
    longer there (removed by someone else in the meantime) is not passed
    over: the request ends with [FileNotFoundError] and returns no body,
    whatever the age of the other files. *)
Theorem reaper_missing_file (fs : gmap string Z) (walk : list (string * list string))
    (now h : Z) (root filename : string) :
  Reaper.datetime_min <= now <= Reaper.datetime_max ->
  Reaper.datetime_min <= now - h * Reaper.us_per_hour <= Reaper.datetime_max ->
  (root, filename) ∈ entries walk ->
  Reaper.is_snapshot_name filename = true ->
  fs !! Reaper.path_join root filename = None ->
  exists p, Reaper.delete_old_ti_files fs walk now h
            = Raise (Reaper.FileNotFoundError p).
Proof.
  intros Hnow Hthr Hin Hname Hmiss.
  destruct (sweep_entries_missing (now - h * Reaper.us_per_hour) (entries walk)
              fs [] (root, filename)) as [p Hp];
    [done | by unfold named; cbn; rewrite Hname | done |].
  exists p. unfold Reaper.delete_old_ti_files.
  pose proof (reaper_threshold now h Hnow Hthr) as Ht.
  destruct (Reaper.timedelta_hours h) as [delta|err]; [|discriminate Ht].
  cbn [mbind result_bind] in Ht |- *. rewrite Ht. cbn [mbind result_bind].
  by rewrite sweep_walk_entries, Hp.
Qed.

Lemma reaper_missing_file_witness :
  exists p,
    Reaper.delete_old_ti_files sample_fs
      [("/app/data", ["indicators_old.json"; "indicators_lost.json"])]%string sample_now 6
    = Raise (Reaper.FileNotFoundError p).
Proof.
  apply (reaper_missing_file sample_fs
           [("/app/data", ["indicators_old.json"; "indicators_lost.json"])]%string
           sample_now 6 "/app/data" "indicators_lost.json").
  - vm_compute. split; discriminate.
  - vm_compute. split; discriminate.
  - cbn. apply elem_of_cons. right. apply elem_of_cons. by left.
  - reflexivity.
  - reflexivity.
Defined.

(** ** The scheduler outside the ordinary runs *)

(** X11: with generate-on-start enabled, a start-up cycle that raises,
    were it an ordinary [Exception], is not caught: the exception leaves
    [_start_generator], nothing is printed, and the loop is never started
    (no sleep is ever taken), however long one waits. *)
Theorem startup_failure_propagates (cfg : Config)
    (outcomes : nat -> Scheduler.cycle_outcome) (e : Scheduler.exn) (turns : nat) :
  GENERATE_ON_START cfg = true ->
  raised_by (outcomes O) = Some e ->
  Scheduler._start_generator cfg outcomes turns
  = (failed_cycle cfg (outcomes O), Scheduler.Raised e)
  /\ (forall ev, ev ∈ failed_cycle cfg (outcomes O) ->
        ev = Scheduler.EvGenerate (MIN_COUNT cfg) (MAX_COUNT cfg) \/ ev = Scheduler.EvWrite).
Proof.
  intros Hstart Hraise. unfold Scheduler._start_generator, failed_cycle.
  rewrite Hstart.
  destruct (outcomes O) as [|e0|e0]; [discriminate Hraise | |];
    injection Hraise as ->; cbn [Scheduler.cycle fst].
  - split; [reflexivity|]. intros ev Hev. apply list_elem_of_singleton in Hev. by left.
  - split; [reflexivity|]. intros ev Hev.
    apply elem_of_cons in Hev as [->|Hev]; [by left|].
    apply list_elem_of_singleton in Hev. by right.
Qed.

Lemma startup_failure_propagates_witness :
  GENERATE_ON_START default_config = true
  /\ Scheduler._start_generator default_config
       (fun _ => Scheduler.WriteRaises (Scheduler.Exception "read-only")) 5
     = ([Scheduler.EvGenerate 10 25; Scheduler.EvWrite],
        Scheduler.Raised (Scheduler.Exception "read-only")).
Proof.
  split; [reflexivity|].
  apply (startup_failure_propagates default_config
           (fun _ => Scheduler.WriteRaises (Scheduler.Exception "read-only"))
           (Scheduler.Exception "read-only") 5 eq_refl eq_refl).
Defined.

Lemma loop_body_base_exception cfg o msg :
  raised_by o = Some (Scheduler.BaseException msg) ->
  Scheduler.loop_body cfg o
  = (Scheduler.EvSleep (GENERATE_EVERY_SECONDS cfg) :: failed_cycle cfg o,
     Some (Scheduler.BaseException msg)).
Proof.
  destruct o as [|e|e]; [discriminate| |]; intros [= ->]; reflexivity.
Qed.

Lemma loop_ends (cfg : Config) (k : nat) : forall outcomes msg turns,
  (forall i, (i < k)%nat -> ordinary (outcomes i)) ->
  raised_by (outcomes k) = Some (Scheduler.BaseException msg) ->
  (k < turns)%nat ->
  Scheduler._loop cfg outcomes turns
  = (concat ((fun i => turn_trace cfg 10 (outcomes i)) <$> seq 0 k)
       ++ Scheduler.EvSleep (GENERATE_EVERY_SECONDS cfg) :: failed_cycle cfg (outcomes k),
     Scheduler.Raised (Scheduler.BaseException msg)).
Proof.
  induction k as [|k IH]; intros outcomes msg turns Hord Hraise Hturns;
    (destruct turns as [|turns]; [lia|]); cbn [Scheduler._loop].
  - by rewrite (loop_body_base_exception _ _ _ Hraise).
  - rewrite loop_body_ordinary by (apply Hord; lia).
    rewrite (IH (fun i => outcomes (S i)) msg turns);
      [|intros i Hi; apply Hord; lia | done | lia].
    cbn [seq fmap list_fmap concat]. rewrite <- app_assoc. do 3 f_equal.
    rewrite <- seq_shift, <- list_fmap_compose. reflexivity.
Qed.

(** X12: [except Exception] does not catch everything.  When the cycle of
    turn [k] raises an exception that is not an [Exception] (a
    cancellation, [SystemExit], [KeyboardInterrupt]), nothing is logged,
    no backoff is slept, and the task ends with that exception: however
    many further turns one waits for, nothing more happens. *)
Theorem loop_ends_on_base_exception (cfg : Config)
    (outcomes : nat -> Scheduler.cycle_outcome) (k : nat) (msg : string) (turns : nat) :
  (forall i, (i < k)%nat -> ordinary (outcomes i)) ->
  raised_by (outcomes k) = Some (Scheduler.BaseException msg) ->
  (k < turns)%nat ->
  Scheduler._loop cfg outcomes turns = Scheduler._loop cfg outcomes (S k)
  /\ (Scheduler._loop cfg outcomes turns).2 = Scheduler.Raised (Scheduler.BaseException msg)
  /\ exists before,
       (Scheduler._loop cfg outcomes turns).1
       = before ++ Scheduler.EvSleep (GENERATE_EVERY_SECONDS cfg)
                     :: failed_cycle cfg (outcomes k)
       /\ before = concat ((fun i => turn_trace cfg 10 (outcomes i)) <$> seq 0 k).
Proof.
  intros Hord Hraise Hturns.
  rewrite (loop_ends cfg k outcomes msg turns Hord Hraise Hturns).
  rewrite (loop_ends cfg k outcomes msg (S k) Hord Hraise) by lia.
  split; [reflexivity|]. split; [reflexivity|]. by eexists.
Qed.

Lemma loop_ends_on_base_exception_witness :
  let outcomes := fun i : nat =>
    match i with
    | 1%nat => Scheduler.GenerateRaises (Scheduler.BaseException "KeyboardInterrupt")
    | _ => Scheduler.Completes
    end in
  Scheduler._loop default_config outcomes 9 = Scheduler._loop default_config outcomes 2
  /\ (Scheduler._loop default_config outcomes 9).2
     = Scheduler.Raised (Scheduler.BaseException "KeyboardInterrupt").
Proof.
  cbn zeta.
  destruct (loop_ends_on_base_exception default_config
              (fun i : nat =>
                 match i with
                 | 1%nat => Scheduler.GenerateRaises (Scheduler.BaseException "KeyboardInterrupt")
                 | _ => Scheduler.Completes
                 end) 1 "KeyboardInterrupt" 9) as (H1 & H2 & _).
  - intros [|i] Hi; [exact I | lia].
  - reflexivity.
  - lia.
  - split; [exact H1 | exact H2].
Defined.

(** X13: with generate-on-start disabled nothing is generated before the
    first interval has been slept: the task does the turns of the loop and
    nothing else, so the first thing it does is to sleep the interval. *)
Theorem no_generation_before_first_interval (cfg : Config)
    (outcomes : nat -> Scheduler.cycle_outcome) (turns : nat) :
  GENERATE_ON_START cfg = false ->
  (forall i, ordinary (outcomes i)) ->
  Scheduler._start_generator cfg outcomes (S turns)
  = (turn_trace cfg 10 (outcomes O)
       ++ concat ((fun i => turn_trace cfg 10 (outcomes (S i))) <$> seq 0 turns),
     Scheduler.Running)
  /\ head (Scheduler._start_generator cfg outcomes (S turns)).1
     = Some (Scheduler.EvSleep (GENERATE_EVERY_SECONDS cfg)).
Proof.
  intros Hstart Hord. unfold Scheduler._start_generator. rewrite Hstart.
  rewrite loop_runs by done. cbn [seq fmap list_fmap concat].
  rewrite <- seq_shift, <- list_fmap_compose.
  split; [reflexivity|].
  cbn [fst]. by destruct (outcomes O) as [|e|e].
Qed.

Lemma no_generation_before_first_interval_witness :
  let cfg := mkConfig 60 false 1 2 "indicators" false "X" in
  GENERATE_ON_START cfg = false
  /\ head (Scheduler._start_generator cfg (fun _ => Scheduler.Completes) 3).1
     = Some (Scheduler.EvSleep 60).
Proof.
  cbn zeta. split; [reflexivity|].
  apply (no_generation_before_first_interval (mkConfig 60 false 1 2 "indicators" false "X")
           (fun _ => Scheduler.Completes) 2 eq_refl (fun _ => I)).
Defined.

(** ** Strings as sequences of characters *)

Lemma chars_of_chars l : Text.chars (Text.of_chars l) = l.
Proof. apply list_ascii_of_string_of_list_ascii. Qed.

Lemma of_chars_chars s : Text.of_chars (Text.chars s) = s.
Proof. apply string_of_list_ascii_of_string. Qed.

Lemma chars_inj s t : Text.chars s = Text.chars t -> s = t.
Proof. intros H. by rewrite <- (of_chars_chars s), H, of_chars_chars. Qed.

Lemma chars_app s t : Text.chars (s +:+ t) = Text.chars s ++ Text.chars t.
Proof.
  unfold Text.chars. induction s as [|c s IH]; [reflexivity|].
  change (String c s +:+ t) with (String c (s +:+ t)).
  cbn [list_ascii_of_string app]. by rewrite IH.
Qed.

Lemma chars_rev_app s t :
  Text.chars (String.rev_app s t) = reverse (Text.chars s) ++ Text.chars t.
Proof.
  revert t. induction s as [|c s IH]; intros t; [reflexivity|].
  cbn [String.rev_app]. rewrite IH. unfold Text.chars.
  cbn [list_ascii_of_string]. rewrite reverse_cons, <- app_assoc. reflexivity.
Qed.

Lemma chars_rev s : Text.chars (String.rev s) = reverse (Text.chars s).
Proof. unfold String.rev. rewrite chars_rev_app. apply app_nil_r. Qed.

Lemma rev_involutive s : String.rev (String.rev s) = s.
Proof. apply chars_inj. by rewrite !chars_rev, reverse_involutive. Qed.

Lemma slice_tail {A : Type} (l : list A) (n : Z) :
  0 < n <= Py.len l -> Py.slice l (- n) (Py.len l) = drop (Z.to_nat (Py.len l - n)) l.
Proof.
  intros Hn. unfold Py.slice, Py.adjust_index. fold (Py.len l).
  destruct (Z.ltb_spec (- n) 0); [|lia].
  destruct (Z.ltb_spec (Py.len l) 0); [lia|].
  rewrite Z.max_l, Z.min_l by lia.
  replace (- n + Py.len l) with (Py.len l - n) by lia.
  apply take_ge. rewrite length_drop. unfold Py.len in *. lia.
Qed.

(** ** Masking a secret *)

Lemma mask_long (value : string) :
  8 < Text.len value ->
  Text.chars (_mask_sensitive_value value)
  = take 4 (Text.chars value)
    ++ replicate (length (Text.chars value) - 8) "*"%char
    ++ drop (length (Text.chars value) - 4) (Text.chars value).
Proof.
  intros Hlen. unfold _mask_sensitive_value.
  destruct (Z.leb_spec (Text.len value) 8); [lia|].
  unfold Text.slice, Text.repeat, Text.len in *.
  rewrite !chars_app, !chars_of_chars.
  pose proof (slice_tail (Text.chars value) 4) as Htail.
  change (Z.opp 4) with (Zneg 4) in Htail.
  rewrite Htail by lia.
  rewrite slice_take_drop by lia.
  change (Z.to_nat 0) with 0%nat. rewrite drop_0.
  unfold Py.len. repeat f_equal; lia.
Qed.

Lemma mask_short (value : string) :
  Text.len value <= 8 -> _mask_sensitive_value value = value.
Proof.
  intros Hshort. unfold _mask_sensitive_value.
  by destruct (Z.leb_spec (Text.len value) 8); [|lia].
Qed.

Lemma mask_length (value : string) :
  Text.len (_mask_sensitive_value value) = Text.len value.
Proof.
  destruct (Z.le_gt_cases (Text.len value) 8) as [Hshort|Hlong].
  - by rewrite mask_short.
  - unfold Text.len at 1. rewrite (mask_long value) by lia.
    unfold Text.len, Py.len in *.
    rewrite !length_app, length_take, length_replicate, length_drop. lia.
Qed.

Lemma mask_lookup (value : string) (i : nat) :
  8 < Text.len value ->
  Text.chars (_mask_sensitive_value value) !! i
  = if decide (Z.of_nat i < 4 \/ Text.len value - 4 <= Z.of_nat i)
    then Text.chars value !! i
    else Some "*"%char.
Proof.
  intros Hlong. rewrite (mask_long value) by done.
  unfold Text.len, Py.len in *. set (cs := Text.chars value) in *.
  case_decide as Hedge.
  - destruct (decide (i < 4)%nat) as [Hi|Hi].
    + rewrite lookup_app_l by (rewrite length_take; lia).
      by rewrite lookup_take_lt by lia.
    + rewrite lookup_app_r by (rewrite length_take; lia).
      rewrite lookup_app_r by (rewrite length_take, length_replicate; lia).
      rewrite lookup_drop, length_take, length_replicate. f_equal. lia.
  - rewrite lookup_app_r by (rewrite length_take; lia).
    rewrite lookup_app_l by (rewrite length_take, length_replicate; lia).
    apply lookup_replicate. split; [reflexivity|]. rewrite length_take. lia.
Qed.

(** X14: masking keeps the length of the value, so the masked text tells
    how long the secret is. *)
Theorem mask_keeps_length (value : string) :
  Text.len (_mask_sensitive_value value) = Text.len value.
Proof.
  destruct (Z.le_gt_cases (Text.len value) 8) as [Hshort|Hlong].
  - unfold _mask_sensitive_value. by destruct (Z.leb_spec (Text.len value) 8); [|lia].
  - unfold Text.len at 1. rewrite (mask_long value) by lia.
    unfold Text.len, Py.len in *.
    rewrite !length_app, length_take, length_replicate, length_drop. lia.
Qed.

(** X15: a value of at most 8 characters is returned as it is, not masked
    at all; of a longer value the first four and the last four characters
    are kept and every character between them is an asterisk. *)
Theorem mask_shows_eight (value : string) :
  (Text.len value <= 8 -> _mask_sensitive_value value = value)
  /\ (8 < Text.len value ->
      forall i : nat,
        Text.chars (_mask_sensitive_value value) !! i
        = if decide (Z.of_nat i < 4 \/ Text.len value - 4 <= Z.of_nat i)
          then Text.chars value !! i
          else Some "*"%char).
Proof.
  split.
  - intros Hshort. unfold _mask_sensitive_value.
    by destruct (Z.leb_spec (Text.len value) 8); [|lia].
  - intros Hlong i. rewrite (mask_long value) by done.
    unfold Text.len, Py.len in *. set (cs := Text.chars value) in *.
    case_decide as Hedge.
    + destruct (decide (i < 4)%nat) as [Hi|Hi].
      * rewrite lookup_app_l by (rewrite length_take; lia).
        by rewrite lookup_take_lt by lia.
      * rewrite lookup_app_r by (rewrite length_take; lia).
        rewrite lookup_app_r by (rewrite length_take, length_replicate; lia).
        rewrite lookup_drop, length_take, length_replicate. f_equal. lia.
    + rewrite lookup_app_r by (rewrite length_take; lia).
      rewrite lookup_app_l by (rewrite length_take, length_replicate; lia).
      apply lookup_replicate. split; [reflexivity|]. rewrite length_take. lia.
Qed.

Lemma mask_shows_eight_witness :
  (Text.len "abcd1234" <= 8 -> _mask_sensitive_value "abcd1234" = "abcd1234"%string)
  /\ (8 < Text.len "sk-0123456789abcdef" ->
      _mask_sensitive_value "sk-0123456789abcdef" = "sk-0***********cdef"%string
      /\ Text.chars (_mask_sensitive_value "sk-0123456789abcdef") !! 5%nat
         = Some "*"%char).
Proof.
  split.
  - apply (proj1 (mask_shows_eight "abcd1234")).
  - intros Hlong. split; [reflexivity|].
    apply (proj2 (mask_shows_eight "sk-0123456789abcdef") Hlong 5%nat).
Defined.

(** X16: masking twice is masking once. *)
Theorem mask_idempotent (value : string) :
  _mask_sensitive_value (_mask_sensitive_value value) = _mask_sensitive_value value.
Proof.
  destruct (Z.le_gt_cases (Text.len value) 8) as [Hshort|Hlong].
  - by rewrite !(mask_short value Hshort).
  - apply chars_inj, list_eq. intros i.
    assert (8 < Text.len (_mask_sensitive_value value)) as Hlong'
      by (by rewrite mask_length).
    rewrite (mask_lookup _ i Hlong'), mask_length.
    rewrite (mask_lookup _ i Hlong).
    by case_decide.
Qed.

(** ** The API keys of the health check *)

Lemma join_split_go (sep : ascii) (s : string) : forall cur,
  Text.join (String sep EmptyString) (Str.split_go sep cur s) = String.rev cur +:+ s.
Proof.
  induction s as [|c s IH]; intros cur; cbn [Str.split_go].
  - cbn. apply chars_inj. rewrite chars_app. cbn. by rewrite app_nil_r.
  - destruct (Ascii.eqb_spec c sep) as [->|Hne].
    + specialize (IH EmptyString).
      destruct (Str.split_go sep EmptyString s) as [|p ps] eqn:E.
      * by destruct s; cbn in E; [|destruct (Ascii.eqb _ _)].
      * change (Text.join (String sep EmptyString) (String.rev cur :: p :: ps))
          with (String.rev cur +:+ String sep EmptyString
                +:+ Text.join (String sep EmptyString) (p :: ps)).
        rewrite IH. reflexivity.
    + rewrite IH. apply chars_inj.
      rewrite !chars_app, chars_rev. cbn [Text.chars list_ascii_of_string].
      rewrite reverse_cons, <- app_assoc, <- chars_rev. reflexivity.
Qed.

Lemma split_go_nonempty sep s : forall cur, Str.split_go sep cur s <> [].
Proof.
  induction s as [|c s IH]; intros cur; cbn; [done|].
  destruct (Ascii.eqb c sep); [done | apply IH].
Qed.

Lemma split_go_pieces sep s : forall cur,
  sep ∉ Text.chars cur ->
  Forall (fun p => sep ∉ Text.chars p) (Str.split_go sep cur s).
Proof.
  induction s as [|c s IH]; intros cur Hcur; cbn [Str.split_go].
  - constructor; [|constructor]. rewrite chars_rev. by rewrite elem_of_reverse.
  - destruct (Ascii.eqb_spec c sep) as [->|Hne].
    + constructor; [rewrite chars_rev; by rewrite elem_of_reverse|].
      apply IH. apply not_elem_of_nil.
    + apply IH. unfold Text.chars. cbn [list_ascii_of_string].
      apply not_elem_of_cons. split; [congruence | exact Hcur].
Qed.

Lemma split_go_head sep s : forall cur,
  exists rest,
    Str.split_go sep cur s = (String.rev cur +:+ before_first sep s) :: rest.
Proof.
  induction s as [|c s IH]; intros cur; cbn [Str.split_go before_first].
  - eexists. f_equal. apply chars_inj. rewrite chars_app. cbn. by rewrite app_nil_r.
  - destruct (Ascii.eqb_spec c sep) as [->|Hne].
    + eexists. f_equal. apply chars_inj. rewrite chars_app. cbn. by rewrite app_nil_r.
    + destruct (IH (String c cur)) as (rest & ->). exists rest. f_equal.
      apply chars_inj. rewrite !chars_app, !chars_rev.
      unfold Text.chars. cbn [list_ascii_of_string].
      by rewrite reverse_cons, <- app_assoc.
Qed.

Lemma before_first_free sep s : sep ∉ Text.chars (before_first sep s).
Proof.
  induction s as [|c s IH]; cbn [before_first]; [apply not_elem_of_nil|].
  destruct (Ascii.eqb_spec c sep) as [->|Hne]; [apply not_elem_of_nil|].
  unfold Text.chars in *. cbn [list_ascii_of_string].
  apply not_elem_of_cons. split; [congruence | exact IH].
Qed.

(** X17: the health check never fails on the key list.  Splitting the
    environment text at the commas always gives at least one piece (the
    empty text when the variable is unset), so [API_KEYS[0]] exists.  No
    piece contains a comma and the pieces joined with commas are the
    environment text again, so the key that is shown, masked, is the text
    before the first comma: the environment text is that key alone, or
    the key, a comma and the other keys joined with commas. *)
Theorem healthz_api_keys_total (env : Settings) :
  exists key rest,
    API_KEYS env = key :: rest
    /\ healthz_api_keys env = Success (_mask_sensitive_value key)
    /\ Text.join "," (key :: rest) = API_KEYS_ENV env
    /\ key = before_first "," (API_KEYS_ENV env)
    /\ Forall (fun piece => ","%char ∉ Text.chars piece) (key :: rest)
    /\ (rest = [] /\ API_KEYS_ENV env = key
        \/ rest <> [] /\ API_KEYS_ENV env = key +:+ "," +:+ Text.join "," rest).
Proof.
  unfold healthz_api_keys.
  pose proof (join_split_go ","%char (API_KEYS_ENV env) EmptyString) as Hjoin.
  change (String.rev EmptyString +:+ API_KEYS_ENV env) with (API_KEYS_ENV env) in Hjoin.
  pose proof (split_go_pieces ","%char (API_KEYS_ENV env) EmptyString
                (not_elem_of_nil _)) as Hfree.
  destruct (split_go_head ","%char (API_KEYS_ENV env) EmptyString) as (rest' & Hhead).
  unfold API_KEYS, Str.split in *.
  destruct (Str.split_go "," EmptyString (API_KEYS_ENV env)) as [|key rest] eqn:E.
  - by apply split_go_nonempty in E.
  - exists key, rest. split; [reflexivity|]. split; [reflexivity|].
    split; [exact Hjoin|]. split; [by injection Hhead as -> _|].
    split; [exact Hfree|].
    destruct rest as [|p ps]; [left | right].
    + split; [reflexivity|]. by rewrite <- Hjoin.
    + split; [discriminate|]. by rewrite <- Hjoin.
Qed.

Example healthz_api_keys_example :
  healthz_api_keys (mkSettings "alpha-key-000001,beta" EmptyString "/taxii2/root" "T")
  = Success "alph********0001"%string
  /\ healthz_api_keys (mkSettings EmptyString EmptyString "/taxii2/root" "T")
     = Success EmptyString.
Proof. split; reflexivity. Qed.

(** ** Stripping *)

Lemma lstrip_drop_while s : Str.lstrip s = drop_while Str.isspace s.
Proof. induction s as [|a s IH]; [reflexivity|]. cbn. by rewrite IH. Qed.

Lemma lstrip_char_drop_while c s :
  Text.lstrip_char c s = drop_while (fun a => Ascii.eqb a c) s.
Proof. induction s as [|a s IH]; [reflexivity|]. cbn. by rewrite IH. Qed.

Lemma drop_while_spec f s :
  starts_clear f (drop_while f s)
  /\ exists ws, Text.chars s = ws ++ Text.chars (drop_while f s)
                /\ Forall (fun a => f a = true) ws.
Proof.
  induction s as [|a s [IH1 (ws & IH2 & IH3)]]; cbn [drop_while].
  - split; [exact I|]. by exists [].
  - destruct (f a) eqn:Hf.
    + split; [done|]. exists (a :: ws). split; [|by constructor].
      unfold Text.chars in *. cbn [list_ascii_of_string]. by rewrite IH2.
    + split; [exact Hf|]. by exists [].
Qed.

Lemma drop_while_clear f s : starts_clear f s -> drop_while f s = s.
Proof. destruct s as [|a s]; [done|]. cbn. by intros ->. Qed.

Lemma starts_clear_app f s t :
  s <> EmptyString -> starts_clear f (s +:+ t) -> starts_clear f s.
Proof. by destruct s. Qed.

(** Stripping at both ends, as [strip] does it with [f := isspace]. *)
Lemma trim_spec f s :
  let r := String.rev (drop_while f (String.rev (drop_while f s))) in
  (exists ws ws', Text.chars s = ws ++ Text.chars r ++ ws'
                  /\ Forall (fun a => f a = true) ws
                  /\ Forall (fun a => f a = true) ws')
  /\ starts_clear f r
  /\ starts_clear f (String.rev r).
Proof.
  intros r. subst r.
  destruct (drop_while_spec f s) as [Ht (ws & Hs & Hws)].
  set (t := drop_while f s) in *.
  destruct (drop_while_spec f (String.rev t)) as [Hv (ws' & Hu & Hws')].
  set (v := drop_while f (String.rev t)) in *.
  assert (Text.chars t = Text.chars (String.rev v) ++ reverse ws') as Htv.
  { rewrite chars_rev, <- reverse_app, <- Hu, chars_rev. by rewrite reverse_involutive. }
  split; [|split].
  - exists ws, (reverse ws'). split; [by rewrite Hs, Htv|]. split; [done|].
    by apply Forall_reverse.
  - destruct (String.rev v) as [|a r] eqn:E; [exact I|].
    unfold Text.chars in Htv. cbn [list_ascii_of_string app] in Htv.
    destruct t as [|b t']; [discriminate Htv|].
    cbn [list_ascii_of_string] in Htv. injection Htv as <- _. exact Ht.
  - by rewrite rev_involutive.
Qed.

Lemma strip_trim s :
  Str.strip s = String.rev (drop_while Str.isspace (String.rev (drop_while Str.isspace s))).
Proof. unfold Str.strip. by rewrite !lstrip_drop_while. Qed.

Lemma strip_of_clear s :
  starts_clear Str.isspace s -> starts_clear Str.isspace (String.rev s) -> Str.strip s = s.
Proof.
  intros H1 H2. rewrite strip_trim.
  by rewrite (drop_while_clear _ s H1), (drop_while_clear _ _ H2), rev_involutive.
Qed.

Lemma strip_idempotent s : Str.strip (Str.strip s) = Str.strip s.
Proof.
  destruct (trim_spec Str.isspace s) as (_ & H1 & H2). cbn zeta in *.
  rewrite <- strip_trim in *. by apply strip_of_clear.
Qed.

Lemma strip_chars s c : c ∈ Text.chars (Str.strip s) -> c ∈ Text.chars s.
Proof.
  destruct (trim_spec Str.isspace s) as ((ws & ws' & Hs & _) & _). cbn zeta in *.
  rewrite <- strip_trim in *. rewrite Hs. intros Hc.
  apply elem_of_app. right. apply elem_of_app. by left.
Qed.

(** The test of [strip] is the table of white space. *)
Lemma isspace_white_space (c : ascii) :
  Str.isspace c = bool_decide (N_of_ascii c ∈ white_space).
Proof. destruct c as [[] [] [] [] [] [] [] []]; vm_compute; reflexivity. Qed.

Lemma isspace_true (c : ascii) : Str.isspace c = true -> N_of_ascii c ∈ white_space.
Proof. rewrite isspace_white_space. apply bool_decide_eq_true_1. Qed.

Lemma isspace_false (c : ascii) : Str.isspace c = false -> N_of_ascii c ∉ white_space.
Proof. rewrite isspace_white_space. apply bool_decide_eq_false_1. Qed.

Lemma starts_clear_head f s c :
  starts_clear f s -> head (Text.chars s) = Some c -> f c = false.
Proof. destruct s as [|a s]; [done|]. cbn. by intros ? [= <-]. Qed.

Lemma strip_trimmed s : trimmed (Str.strip s).
Proof.
  destruct (trim_spec Str.isspace s) as (_ & H1 & H2). cbn zeta in *.
  rewrite <- strip_trim in *. intros c [Hc|Hc]; apply isspace_false.
  - by apply (starts_clear_head _ _ _ H1).
  - apply (starts_clear_head _ _ _ H2). by rewrite chars_rev, head_reverse.
Qed.

Lemma strip_stripped_from s : stripped_from s (Str.strip s).
Proof.
  split; [apply strip_trimmed|].
  destruct (trim_spec Str.isspace s) as ((ws & ws' & Hs & Hws & Hws') & _).
  cbn zeta in *. rewrite <- strip_trim in *.
  exists ws, ws'. split; [exact Hs|].
  split; (eapply Forall_impl; [eassumption|]); intros a; apply isspace_true.
Qed.

Lemma of_chars_app l l' : Text.of_chars (l ++ l') = Text.of_chars l +:+ Text.of_chars l'.
Proof. apply chars_inj. by rewrite chars_app, !chars_of_chars. Qed.

Lemma rev_app s t : String.rev (s +:+ t) = String.rev t +:+ String.rev s.
Proof. apply chars_inj. by rewrite chars_app, !chars_rev, chars_app, reverse_app. Qed.

Lemma rev_of_chars l : String.rev (Text.of_chars l) = Text.of_chars (reverse l).
Proof. apply chars_inj. by rewrite chars_rev, !chars_of_chars. Qed.

Lemma drop_while_spaces f ws s :
  Forall (fun a => f a = true) ws -> drop_while f (Text.of_chars ws +:+ s) = drop_while f s.
Proof.
  induction 1 as [|a ws Ha _ IH]; [reflexivity|].
  change (Text.of_chars (a :: ws) +:+ s) with (String a (Text.of_chars ws +:+ s)).
  cbn [drop_while]. by rewrite Ha.
Qed.

Lemma head_starts_clear f s :
  (forall c, head (Text.chars s) = Some c -> f c = false) -> starts_clear f s.
Proof. destruct s as [|a s]; [done|]. intros H. by apply H. Qed.

(** What [strip] gives is the only text that is its argument without the
    white space at the two ends. *)
Lemma stripped_from_strip piece t : stripped_from piece t -> Str.strip piece = t.
Proof.
  intros (Htrim & ws & ws' & Hpiece & Hws & Hws').
  assert (Hsp : forall l, Forall (fun a => N_of_ascii a ∈ white_space) l
                          -> Forall (fun a => Str.isspace a = true) l).
  { intros l Hl. eapply Forall_impl; [exact Hl|]. intros a Ha.
    rewrite isspace_white_space. by apply bool_decide_eq_true_2. }
  assert (Hclear : forall c, head (Text.chars t) = Some c \/ last (Text.chars t) = Some c
                             -> Str.isspace c = false).
  { intros c Hc. rewrite isspace_white_space. apply bool_decide_eq_false_2.
    by apply Htrim. }
  assert (piece = Text.of_chars ws +:+ (t +:+ Text.of_chars ws')) as ->.
  { apply chars_inj. by rewrite !chars_app, !chars_of_chars. }
  rewrite strip_trim, drop_while_spaces by (by apply Hsp).
  destruct t as [|a t].
  - change (EmptyString +:+ Text.of_chars ws') with (Text.of_chars ws').
    replace (Text.of_chars ws') with (Text.of_chars ws' +:+ EmptyString)
      by (apply chars_inj; rewrite chars_app; apply app_nil_r).
    rewrite drop_while_spaces by (by apply Hsp). reflexivity.
  - rewrite (drop_while_clear _ (String a t +:+ Text.of_chars ws')).
    2:{ apply head_starts_clear. intros c Hc. apply Hclear. left.
        unfold Text.chars in *. by destruct ws'. }
    rewrite rev_app, rev_of_chars.
    rewrite drop_while_spaces by (apply Hsp; by apply Forall_reverse).
    rewrite drop_while_clear; [apply rev_involutive|].
    apply head_starts_clear. intros c Hc. apply Hclear. right.
    by rewrite chars_rev, head_reverse in Hc.
Qed.

(** ** The TAXII discovery document *)

Lemma rev_snoc s c : String.rev (s +:+ String c EmptyString) = String c (String.rev s).
Proof.
  apply chars_inj. rewrite chars_rev, chars_app.
  unfold Text.chars at 2 3. cbn [list_ascii_of_string].
  by rewrite reverse_app, <- chars_rev.
Qed.

Lemma prefix_one c a r : a <> c -> String.prefix (String c EmptyString) (String a r) = false.
Proof.
  intros H. cbn [String.prefix]. destruct (ascii_dec c a) as [->|]; [done | reflexivity].
Qed.

(** X18: the discovery document does not depend on a trailing slash of the
    base URL: the api root is the base URL without any slash at its end,
    followed by the root path, it is the only entry of [api_roots], and one
    more slash at the end of the base URL changes nothing. *)
Theorem discovery_ignores_trailing_slash (env : Settings) (base_url : string) :
  taxii_discovery env (base_url +:+ "/") = taxii_discovery env base_url
  /\ db_api_roots (taxii_discovery env base_url) = [db_default (taxii_discovery env base_url)]
  /\ exists base slashes,
       db_default (taxii_discovery env base_url) = base +:+ TAXII_API_ROOT_PATH env
       /\ Str.endswith "/" base = false
       /\ Text.chars base_url = Text.chars base ++ slashes
       /\ Forall (fun a => a = "/"%char) slashes.
Proof.
  split; [|split; [reflexivity|]].
  - unfold taxii_discovery, Text.rstrip_char.
    change (base_url +:+ "/") with (base_url +:+ String "/" EmptyString).
    by rewrite rev_snoc.
  - unfold taxii_discovery, Text.rstrip_char. cbn [db_default].
    rewrite lstrip_char_drop_while.
    set (f := fun a => Ascii.eqb a "/").
    destruct (drop_while_spec f (String.rev base_url)) as [Hclear (ws & Hu & Hws)].
    set (v := drop_while f (String.rev base_url)) in *.
    exists (String.rev v), (reverse ws). split; [reflexivity|]. split; [|split].
    + unfold Str.endswith. rewrite rev_involutive.
      destruct v as [|a v']; [reflexivity|]. cbn in Hclear.
      unfold f in Hclear. apply Ascii.eqb_neq in Hclear.
      change (String.rev "/") with (String "/" EmptyString).
      by apply prefix_one.
    + rewrite chars_rev, <- reverse_app, <- Hu, chars_rev. by rewrite reverse_involutive.
    + apply Forall_reverse. eapply Forall_impl; [exact Hws|].
      intros a Ha. by apply Ascii.eqb_eq.
Qed.

Example discovery_example :
  db_default (taxii_discovery (mkSettings EmptyString EmptyString "/taxii2/root" "T")
                "http://localhost:8080//")
  = "http://localhost:8080/taxii2/root"%string.
Proof. reflexivity. Qed.

(** ** The types parameter *)

Lemma parse_types_parts (s : string) (parts : list string) :
  _parse_types_param (Some s) = Some parts ->
  parts <> []
  /\ forall t, t ∈ parts -> exists piece,
       piece ∈ Str.split ","%char s /\ t = Str.strip piece /\ t <> EmptyString.
Proof.
  unfold _parse_types_param. destruct (negb (Str.truthy s)); [discriminate|].
  set (g := fun t => if Str.truthy (Str.strip t) then Some (Str.strip t) else None).
  destruct (omap g (Str.split "," s)) as [|p ps] eqn:E; [discriminate|].
  intros [= <-]. split; [discriminate|].
  intros t Ht. rewrite <- E in Ht. apply list_elem_of_omap in Ht as (piece & Hpiece & Hg).
  exists piece. split; [exact Hpiece|]. unfold g in Hg.
  destruct (Str.truthy (Str.strip piece)) eqn:Htr; [|discriminate Hg].
  injection Hg as <-. split; [reflexivity|].
  intros Hempty. by rewrite Hempty in Htr.
Qed.

Lemma strip_clean (piece : string) (pieces : list string) :
  piece ∈ pieces -> Forall (fun p => ","%char ∉ Text.chars p) pieces ->
  Str.strip piece <> EmptyString -> clean_name (Str.strip piece).
Proof.
  intros Hpiece Hfree Hnonempty.
  split; [exact Hnonempty|]. split; [|split; [apply strip_idempotent | apply strip_trimmed]].
  intros Hcomma. apply strip_chars in Hcomma.
  rewrite Forall_forall in Hfree. by apply (Hfree piece).
Qed.

Lemma parse_types_clean_parts (s : string) (parts : list string) :
  _parse_types_param (Some s) = Some parts ->
  parts <> [] /\ Forall clean_name parts.
Proof.
  intros Hparse. destruct (parse_types_parts s parts Hparse) as [Hne Hparts].
  split; [exact Hne|]. apply Forall_forall. intros t Ht.
  destruct (Hparts t Ht) as (piece & Hpiece & -> & Hnonempty).
  apply (strip_clean piece (Str.split ","%char s)); [done| |done].
  apply split_go_pieces, not_elem_of_nil.
Qed.



(** A parameter that consists of a NO-BREAK SPACE names no type, and a
    NO-BREAK SPACE or a NEXT LINE at the end of a piece is stripped. *)
Example parse_types_latin1_spaces :
  _parse_types_param (Some (String nbsp EmptyString)) = None
  /\ _parse_types_param (Some ("a" +:+ String nbsp ",b")) = Some ["a"; "b"]%string
  /\ _parse_types_param (Some (String nel "indicator" +:+ String nel EmptyString))
     = Some ["indicator"]%string
  /\ _parse_types_param (Some ("attack" +:+ String nbsp "pattern"))
     = Some ["attack" +:+ String nbsp "pattern"].
Proof. repeat split; reflexivity. Qed.

(** A [types] parameter that is a NO-BREAK SPACE filters nothing: the
    handler serves all four objects of the sample store. *)
Example collection_objects_blank_types :
  get_collection_objects default_config sample_store "indicators" None
    (Some (String nbsp EmptyString)) 100 None
  = get_collection_objects default_config sample_store "indicators" None None 100 None
  /\ when_ok (fun body => ob_total body = 4 /\ Py.len (ob_objects body) = 4)
       (get_collection_objects default_config sample_store "indicators" None
          (Some (String nbsp EmptyString)) 100 None).
Proof. split; [reflexivity|]. vm_compute. split; reflexivity. Qed.

Lemma append_empty_r s : s +:+ EmptyString = s.
Proof. apply chars_inj. rewrite chars_app. apply app_nil_r. Qed.

Lemma split_go_app sep p : sep ∉ Text.chars p -> forall cur rest,
  Str.split_go sep cur (p +:+ rest) = Str.split_go sep (String.rev_app p cur) rest.
Proof.
  induction p as [|a p IH]; intros Hp cur rest; [reflexivity|].
  unfold Text.chars in Hp. cbn [list_ascii_of_string] in Hp.
  apply not_elem_of_cons in Hp as [Hne Hp].
  change (String a p +:+ rest) with (String a (p +:+ rest)).
  cbn [Str.split_go String.rev_app].
  destruct (Ascii.eqb_spec a sep) as [->|_]; [done|]. by apply IH.
Qed.

Lemma split_join sep (parts : list string) :
  parts <> [] -> Forall (fun p => sep ∉ Text.chars p) parts ->
  Str.split sep (Text.join (String sep EmptyString) parts) = parts.
Proof.
  unfold Str.split. induction parts as [|x [|y rest] IH]; intros Hne Hfree; [done| |].
  - cbn [Text.join]. rewrite <- (append_empty_r x) at 1.
    rewrite split_go_app by (by inversion Hfree).
    cbn [Str.split_go]. fold (String.rev x). by rewrite rev_involutive.
  - change (Text.join (String sep EmptyString) (x :: y :: rest))
      with (x +:+ String sep (Text.join (String sep EmptyString) (y :: rest))).
    rewrite split_go_app by (by inversion Hfree).
    cbn [Str.split_go]. rewrite Ascii.eqb_refl.
    fold (String.rev x). rewrite rev_involutive. f_equal.
    apply IH; [done | by inversion Hfree].
Qed.

Lemma join_truthy sep x rest :
  x <> EmptyString -> Str.truthy (Text.join sep (x :: rest)) = true.
Proof. destruct x as [|a x]; [done|]. by destruct rest. Qed.

Lemma omap_clean (parts : list string) :
  Forall clean_name parts ->
  omap (fun t => if Str.truthy (Str.strip t) then Some (Str.strip t) else None) parts
  = parts.
Proof.
  induction 1 as [|t parts (Hne & _ & Hstrip & _) _ IH]; [reflexivity|].
  cbn [omap list_omap]. rewrite Hstrip.
  destruct t as [|a t]; [done|]. cbn [Str.truthy]. by rewrite IH.
Qed.

(** X20: the parser gives a normal form.  The names it returns, joined with
    commas as [taxii_objects] joins them for the label of the ETag, parse
    to the same list again. *)
Theorem parse_types_normal_form (types_param : option string) (parts : list string) :
  _parse_types_param types_param = Some parts ->
  _parse_types_param (Some (types_label (Some parts))) = Some parts.
Proof.
  destruct types_param as [s|]; [|discriminate].
  intros Hparse. destruct (parse_types_clean_parts _ _ Hparse) as [Hne Hclean].
  destruct parts as [|x rest]; [done|].
  cbn [types_label]. unfold _parse_types_param.
  assert (x <> EmptyString) as Hx by (by inversion Hclean as [|? ? [? _]]).
  rewrite (join_truthy "," x rest Hx). cbn [negb].
  change ","%string with (String ","%char EmptyString).
  rewrite split_join; [|done|].
  - by rewrite (omap_clean _ Hclean).
  - eapply Forall_impl; [exact Hclean|]. by intros t (_ & Ht & _).
Qed.

Lemma parse_types_normal_form_witness :
  _parse_types_param (Some (" indicator" +:+ String nbsp ",, malware"))
  = Some ["indicator"; "malware"]%string
  /\ types_label (Some ["indicator"; "malware"]%string) = "indicator,malware"%string
  /\ _parse_types_param (Some (types_label (Some ["indicator"; "malware"]%string)))
     = Some ["indicator"; "malware"]%string.
Proof.
  split; [reflexivity|]. split; [reflexivity|].
  apply (parse_types_normal_form (Some (" indicator" +:+ String nbsp ",, malware"))
           ["indicator"; "malware"]%string eq_refl).
Defined.

(** ** The CORS origins *)

(** X21: the configured CORS origins are the pieces of the environment text
    between commas, stripped, that are not empty: no origin is empty, has a
    comma in it or white space at either end (the list itself may be
    empty, in which case no CORS middleware is added).  Each origin is a
    piece without the white space at its two ends, and every piece that
    does not consist of white space gives an origin. *)
Theorem cors_origins_clean (env : Settings) :
  Forall clean_name (CORS_ORIGINS env)
  /\ Forall (fun o => exists piece,
               piece ∈ Str.split ","%char (CORS_ORIGINS_ENV env)
               /\ stripped_from piece o) (CORS_ORIGINS env)
  /\ (forall piece o,
        piece ∈ Str.split ","%char (CORS_ORIGINS_ENV env) -> stripped_from piece o ->
        o <> EmptyString -> o ∈ CORS_ORIGINS env).
Proof.
  split; [|split].
  - apply Forall_forall. intros t Ht. unfold CORS_ORIGINS in Ht.
    apply list_elem_of_omap in Ht as (piece & Hpiece & Hg).
    destruct (Str.truthy (Str.strip piece)) eqn:Htr; [|discriminate Hg].
    injection Hg as <-.
    apply (strip_clean piece (Str.split ","%char (CORS_ORIGINS_ENV env))); [done| |].
    + apply split_go_pieces, not_elem_of_nil.
    + intros Hempty. by rewrite Hempty in Htr.
  - apply Forall_forall. intros t Ht. unfold CORS_ORIGINS in Ht.
    apply list_elem_of_omap in Ht as (piece & Hpiece & Hg).
    destruct (Str.truthy (Str.strip piece)) eqn:Htr; [|discriminate Hg].
    injection Hg as <-. exists piece. split; [exact Hpiece | apply strip_stripped_from].
  - intros piece o Hpiece Hstripped Hnonempty.
    pose proof (stripped_from_strip piece o Hstripped) as <-.
    unfold CORS_ORIGINS. apply list_elem_of_omap.
    exists piece. split; [exact Hpiece|].
    by destruct (Str.strip piece).
Qed.

Example cors_origins_example :
  CORS_ORIGINS (mkSettings EmptyString " https://a.example , ,https://b.example"
                  "/taxii2/root" "T")
  = ["https://a.example"; "https://b.example"]%string
  /\ CORS_ORIGINS (mkSettings EmptyString EmptyString "/taxii2/root" "T") = []
  /\ CORS_ORIGINS (mkSettings EmptyString
                     (String nbsp "https://a.example" +:+ String nel ("," +:+ String nbsp EmptyString))
                     "/taxii2/root" "T")
     = ["https://a.example"]%string.
Proof. repeat split; reflexivity. Qed.

(** ** Paging through the indicators operation *)

Lemma follow_indicators_pages cfg data_dir since k (fuel : nat) : forall next,
  follow_indicators fuel cfg data_dir since k next
  = follow_pages fuel (load_indicators data_dir since 10000) k next.
Proof.
  induction fuel as [|fuel IH]; intros next; [reflexivity|].
  cbn [follow_indicators follow_pages]. rewrite get_indicators_unfold. cbn zeta.
  cbn [ib_more ib_stixobjects ib_next].
  destruct (_page _ _ _) as [[[page total] more] tok]. cbn [fst snd].
  destruct more; [|reflexivity]. by rewrite IH.
Qed.

(** X22: a client that pages through the indicators operation with a
    page size [k >= 1], starting without a cursor and following [next]
    while [more] is set, is done after at most one request more than there
    are indicators, and has then received every indicator of the (at most
    10000) loaded ones exactly once and in order, provided the data
    directory did not change in the meantime. *)
Theorem indicators_paging_exhaustive (cfg : Config) (data_dir : list Snapshot)
    (since : option string) (k : Z) :
  1 <= k ->
  let items := load_indicators data_dir since 10000 in
  exists pages,
    follow_indicators (S (length items)) cfg data_dir since k None = Some pages
    /\ concat pages = items
    /\ Forall (fun page => Py.len page <= k) pages.
Proof.
  intros Hk items. rewrite follow_indicators_pages. fold items.
  destruct (follow_pages_from (S (length items)) items k 0 None) as (pages & H1 & H2 & H3);
    [done | unfold Py.len; lia | reflexivity | unfold Py.len; lia |].
  exists pages. by rewrite drop_0 in H2.
Qed.

Lemma indicators_paging_exhaustive_witness :
  1 <= 2
  /\ exists pages,
       follow_indicators (S (length (load_indicators sample_store None 10000)))
         default_config sample_store None 2 None = Some pages
       /\ concat pages = load_indicators sample_store None 10000
       /\ Forall (fun page => Py.len page <= 2) pages.
Proof.
  split; [lia|].
  apply (indicators_paging_exhaustive default_config sample_store None 2). lia.
Defined.

(** ** File names and paths *)

Lemma rfind_from_absent c s : forall i found,
  c ∉ Text.chars s -> Path.rfind_from c s i found = found.
Proof.
  induction s as [|a s IH]; intros i found Hc; [reflexivity|].
  unfold Text.chars in Hc. cbn [list_ascii_of_string] in Hc.
  apply not_elem_of_cons in Hc as [Hne Hc]. cbn [Path.rfind_from].
  destruct (Ascii.eqb_spec a c) as [->|_]; [done|]. by apply IH.
Qed.

Lemma rfind_from_last c suf : c ∉ suf -> forall pre i found,
  Path.rfind_from c (Text.of_chars (pre ++ c :: suf)) i found = i + Z.of_nat (length pre).
Proof.
  intros Hsuf. induction pre as [|a pre IH]; intros i found.
  - cbn [app Text.of_chars string_of_list_ascii Path.rfind_from].
    rewrite Ascii.eqb_refl. fold (Text.of_chars suf).
    rewrite rfind_from_absent by (by rewrite chars_of_chars). cbn. lia.
  - cbn [app Text.of_chars string_of_list_ascii Path.rfind_from].
    fold (Text.of_chars (pre ++ c :: suf)). rewrite IH. cbn [length]. lia.
Qed.

Lemma last_occurrence (c : ascii) (l : list ascii) :
  c ∉ l \/ exists pre suf, l = pre ++ c :: suf /\ c ∉ suf.
Proof.
  induction l as [|a l [IH|(pre & suf & -> & Hsuf)]].
  - left. apply not_elem_of_nil.
  - destruct (decide (a = c)) as [->|Hne].
    + right. by exists [], l.
    + left. by apply not_elem_of_cons.
  - right. by exists (a :: pre), suf.
Qed.

Lemma slice_all {A : Type} (l : list A) : Py.slice l 0 (Py.len l) = l.
Proof.
  rewrite slice_take_drop by (unfold Py.len; lia).
  rewrite Z.sub_0_r. change (Z.to_nat 0) with 0%nat. rewrite drop_0.
  apply take_ge. unfold Py.len. lia.
Qed.

Lemma basename_no_slash (p : string) :
  "/"%char ∉ Text.chars p -> Path.basename p = p.
Proof.
  intros Hp. unfold Path.basename, Path.rfind.
  rewrite rfind_from_absent by done. cbn [Z.add Z.opp Z.pos_sub].
  unfold Text.slice, Text.len. by rewrite slice_all, of_chars_chars.
Qed.

Lemma basename_after_slash (p : string) (pre suf : list ascii) :
  Text.chars p = pre ++ "/"%char :: suf -> "/"%char ∉ suf ->
  Path.basename p = Text.of_chars suf.
Proof.
  intros Hp Hsuf.
  assert (Path.rfind "/" p = 0 + Z.of_nat (length pre)) as Hr.
  { unfold Path.rfind. rewrite <- (of_chars_chars p), Hp. by apply rfind_from_last. }
  unfold Path.basename. cbn zeta. rewrite Hr.
  unfold Text.slice, Text.len. rewrite Hp. f_equal.
  assert (Py.len (pre ++ "/"%char :: suf)
          = Z.of_nat (length pre) + 1 + Z.of_nat (length suf)) as Hlen.
  { unfold Py.len. rewrite length_app. cbn [length]. lia. }
  rewrite slice_take_drop by lia.
  replace (Z.to_nat (0 + Z.of_nat (length pre) + 1)) with (length pre + 1)%nat by lia.
  rewrite <- drop_drop, drop_app_length. cbn [drop].
  apply take_ge. lia.
Qed.

Lemma endswith_slash (root : string) :
  Str.endswith "/" root = true ->
  exists pre, Text.chars root = pre ++ ["/"%char].
Proof.
  unfold Str.endswith. change (String.rev "/") with (String "/" EmptyString).
  destruct (String.rev root) as [|a t] eqn:E; [discriminate|].
  cbn [String.prefix]. destruct (ascii_dec "/" a) as [<-|]; [|discriminate].
  intros _. exists (reverse (Text.chars t)).
  rewrite <- (rev_involutive root), E, chars_rev.
  unfold Text.chars at 1. cbn [list_ascii_of_string]. by rewrite reverse_cons.
Qed.

(** X23: [basename] undoes [join] on file names.  The result of
    [os.path.basename] never contains a slash, and for a file name without
    a slash, as a directory listing gives them, the base name of
    [os.path.join(root, filename)] is the file name again, whatever the
    directory: the names that the delete operation reports are the base
    names of the paths it removed. *)
Theorem basename_of_join (root filename : string) :
  ("/"%char ∉ Text.chars (Path.basename (Reaper.path_join root filename)))
  /\ ("/"%char ∉ Text.chars filename ->
      Path.basename (Reaper.path_join root filename) = filename).
Proof.
  split.
  - set (p := Reaper.path_join root filename).
    destruct (last_occurrence "/"%char (Text.chars p)) as [Hno|(pre & suf & Hp & Hsuf)].
    + by rewrite basename_no_slash.
    + rewrite (basename_after_slash p pre suf Hp Hsuf). by rewrite chars_of_chars.
  - intros Hname. unfold Reaper.path_join.
    assert (Str.startswith "/" filename = false) as ->.
    { unfold Str.startswith. destruct filename as [|a f]; [reflexivity|].
      cbn [String.prefix]. destruct (ascii_dec "/" a) as [<-|]; [|reflexivity].
      exfalso. apply Hname. unfold Text.chars. cbn [list_ascii_of_string]. by left. }
    destruct root as [|r0 root'] eqn:Hroot.
    + cbn [Str.truthy negb orb]. change (EmptyString +:+ filename) with filename.
      by apply basename_no_slash.
    + rewrite <- Hroot. assert (Str.truthy root = true) as -> by (by subst).
      cbn [negb orb]. destruct (Str.endswith "/" root) eqn:Hend.
      * destruct (endswith_slash root Hend) as [pre Hpre].
        rewrite (basename_after_slash (root +:+ filename) pre (Text.chars filename));
          [apply of_chars_chars | | done].
        rewrite chars_app, Hpre, <- app_assoc. reflexivity.
      * rewrite (basename_after_slash (root +:+ "/" +:+ filename) (Text.chars root)
                   (Text.chars filename));
          [apply of_chars_chars | | done].
        rewrite !chars_app. reflexivity.
Qed.

Lemma basename_of_join_witness :
  ("/"%char ∉ Text.chars "indicators_1.json")
  /\ Path.basename (Reaper.path_join "/app/data/" "indicators_1.json")
     = "indicators_1.json"%string
  /\ Path.basename (Reaper.path_join "/app/data" "indicators_1.json")
     = "indicators_1.json"%string.
Proof.
  assert ("/"%char ∉ Text.chars "indicators_1.json") as H
    by (apply (bool_decide_unpack _); vm_compute; reflexivity).
  split; [exact H|].
  split; [apply (proj2 (basename_of_join "/app/data/" "indicators_1.json") H)
         | apply (proj2 (basename_of_join "/app/data" "indicators_1.json") H)].
Defined.
